(** * A shallow embedding of the analysis core of graphql-llm-visualizer

    Modelled sources:
    - [src/resolver-analyzer.ts]  ResolverAnalyzer (pattern helpers,
      analyzeResolverImplementation, analyzeObjectLiteral, analyzeFunction,
      analyzeResolversFromSchema, analyzeResolverFunction);
    - [src/static-analyzer.ts]    StaticAnalyzer.analyzeConnections;
    - [src/schema-analyzer.ts]    SchemaAnalyzer (analyze, getTypeName,
      isNonNull, isList, findTypeDependencies);
    - [src/types.ts]              the data model.

    The text the analyzers read is modelled as 7-bit ASCII: a
    [String.string] whose characters have codes below 128 ([JS.is_ascii7]).
    On that range JavaScript's string methods, including the Unicode case
    mappings of [toUpperCase] and [toLowerCase], agree with the ASCII
    definitions below; text beyond it (such as the dotted capital I,
    U+0130, or the sharp s, U+00DF, whose case mappings change the length
    of the text) is outside the model, and
    the results below that depend on case mapping are stated for 7-bit
    text or on 7-bit inputs. The JavaScript regular expressions of the
    source are written out literally in a small backtracking matcher with
    the ECMAScript leftmost, greedy semantics. *)

From Stdlib Require Import Strings.String Strings.Ascii Lists.List Bool.Bool Arith.PeanoNat Lia.
Import ListNotations.
Open Scope string_scope.
Open Scope bool_scope.
Local Open Scope nat_scope.

(* ------------------------------------------------------------------ *)
(** ** String helpers (JavaScript string methods) *)

Module JS.

Definition code (c : ascii) : nat := nat_of_ascii c.

Definition ascii_eqb (a b : ascii) : bool := Ascii.eqb a b.

(** The modelled character range: 7-bit ASCII. *)
Definition is_ascii7 (c : ascii) : bool := code c <? 128.

(** [\w] : [A-Za-z0-9_] *)
Definition is_word (c : ascii) : bool :=
  let n := code c in
  ((65 <=? n) && (n <=? 90)) || ((97 <=? n) && (n <=? 122))
  || ((48 <=? n) && (n <=? 57)) || (n =? 95).

(** [\s] restricted to ASCII: tab, LF, VT, FF, CR and space. *)
Definition is_space (c : ascii) : bool :=
  let n := code c in ((9 <=? n) && (n <=? 13)) || (n =? 32).

Definition dquote : ascii := ascii_of_nat 34.
Definition squote : ascii := ascii_of_nat 39.

(** The class of the two quote characters (single and double quote) and its
    complement, written [[Q]] and [[^Q]] below. *)
Definition is_quote (c : ascii) : bool := ascii_eqb c squote || ascii_eqb c dquote.
Definition not_quote (c : ascii) : bool := negb (is_quote c).

(** [String.prototype.toUpperCase] on 7-bit ASCII, where the Unicode
    mapping sends [a-z] to [A-Z] and fixes every other character. Codes
    128-255 are outside the modelled range and left unchanged. *)
Definition upper_char (c : ascii) : ascii :=
  let n := code c in
  if (97 <=? n) && (n <=? 122) then ascii_of_nat (n - 32) else c.

Fixpoint toUpperCase (s : string) : string :=
  match s with
  | EmptyString => EmptyString
  | String c s' => String (upper_char c) (toUpperCase s')
  end.

(** [String.prototype.toLowerCase] on 7-bit ASCII, where the Unicode
    mapping sends [A-Z] to [a-z] and fixes every other character. Codes
    128-255 are outside the modelled range and left unchanged. *)
Definition lower_char (c : ascii) : ascii :=
  let n := code c in
  if (65 <=? n) && (n <=? 90) then ascii_of_nat (n + 32) else c.

Fixpoint toLowerCase (s : string) : string :=
  match s with
  | EmptyString => EmptyString
  | String c s' => String (lower_char c) (toLowerCase s')
  end.

(** [s.startsWith(p)] *)
Definition startsWith (s p : string) : bool := String.prefix p s.

(** [s.includes(p)] *)
Fixpoint includes (s p : string) : bool :=
  match s with
  | EmptyString => String.prefix p s
  | String _ s' => String.prefix p s || includes s' p
  end.

(** If [p] is a prefix of [s], what follows it. *)
Fixpoint strip_prefix (p s : string) : option string :=
  match p, s with
  | EmptyString, _ => Some s
  | String a p', String b s' => if ascii_eqb a b then strip_prefix p' s' else None
  | String _ _, EmptyString => None
  end.

(** [s.split('.')] *)
Fixpoint split_dot_acc (cur : string) (s : string) : list string :=
  match s with
  | EmptyString => [cur]
  | String c s' =>
      if ascii_eqb c "."%char then cur :: split_dot_acc EmptyString s'
      else split_dot_acc (cur ++ String c EmptyString) s'
  end.

Definition split_dot (s : string) : list string := split_dot_acc EmptyString s.

(** [xs.pop()] on the array (its last element, [undefined] when empty). *)
Fixpoint pop (xs : list string) : option string :=
  match xs with
  | [] => None
  | [x] => Some x
  | _ :: xs' => pop xs'
  end.

(** [x || d] for an optional string: [undefined] and [""] are falsy. *)
Definition or_default (x : option string) (d : string) : string :=
  match x with
  | Some s => if String.eqb s EmptyString then d else s
  | None => d
  end.

(** [s.replace(/[\[\]!]/g, '')] *)
Fixpoint strip_wrappers (s : string) : string :=
  match s with
  | EmptyString => EmptyString
  | String c s' =>
      if ascii_eqb c "["%char || ascii_eqb c "]"%char || ascii_eqb c "!"%char
      then strip_wrappers s' else String c (strip_wrappers s')
  end.

(** [xs.includes(x)] on a string array. *)
Definition list_includes (xs : list string) (x : string) : bool :=
  existsb (String.eqb x) xs.

End JS.

(* ------------------------------------------------------------------ *)
(** ** Regular expressions (the fragment the source uses)

    [RStar c] and [RPlus c] are [c*] and [c+] on a character class;
    [RAlt] is ECMAScript's ordered alternation; [RGroup n r] is the
    capturing group number [n]. Matching is continuation passing and
    greedy, so the first successful match is the one ECMAScript reports. *)

Module Regex.
Import JS.

Inductive regex : Type :=
| RStr (s : string)
| RCls (c : ascii -> bool)
| RStar (c : ascii -> bool)
| RCat (r1 r2 : regex)
| RAlt (r1 r2 : regex)
| RGroup (n : nat) (r : regex).

Definition RPlus (c : ascii -> bool) : regex := RCat (RCls c) (RStar c).

Definition captures := list (nat * string).
Definition mresult := option (string * captures).

(** Greedy [c*]: consume as many as possible first, then back off. *)
Fixpoint star_cls (c : ascii -> bool) (s : string) (k : string -> mresult) : mresult :=
  match s with
  | String a s' =>
      if c a then
        match star_cls c s' k with
        | Some x => Some x
        | None => k s
        end
      else k s
  | EmptyString => k s
  end.

(** The text consumed between [s] and its suffix [rest]. *)
Definition consumed (s rest : string) : string :=
  substring 0 (String.length s - String.length rest) s.

Fixpoint m (r : regex) (s : string) (caps : captures)
         (k : string -> captures -> mresult) : mresult :=
  match r with
  | RStr p =>
      match strip_prefix p s with
      | Some s' => k s' caps
      | None => None
      end
  | RCls c =>
      match s with
      | String a s' => if c a then k s' caps else None
      | EmptyString => None
      end
  | RStar c => star_cls c s (fun s' => k s' caps)
  | RCat r1 r2 => m r1 s caps (fun s1 caps1 => m r2 s1 caps1 k)
  | RAlt r1 r2 =>
      match m r1 s caps k with
      | Some x => Some x
      | None => m r2 s caps k
      end
  | RGroup n r1 =>
      m r1 s caps (fun s1 caps1 => k s1 ((n, consumed s s1) :: caps1))
  end.

(** Match anchored at the start of [s]: the rest and the captures. *)
Definition anchored (r : regex) (s : string) : mresult :=
  m r s [] (fun rest caps => Some (rest, caps)).

(** [text.match(re)] without [g]: the leftmost match. Returns the matched
    text, the rest and the captures. *)
Fixpoint exec (r : regex) (s : string) : option (string * string * captures) :=
  match anchored r s with
  | Some (rest, caps) => Some (consumed s rest, rest, caps)
  | None =>
      match s with
      | EmptyString => None
      | String _ s' => exec r s'
      end
  end.

(** [re.test(text)] *)
Definition test (r : regex) (s : string) : bool :=
  match exec r s with Some _ => true | None => false end.

(** Capture group [n] of a match. *)
Definition group (n : nat) (caps : captures) : option string :=
  match find (fun p => Nat.eqb (fst p) n) caps with
  | Some (_, g) => Some g
  | None => None
  end.

(** [text.match(re)] with [g]: every non-overlapping match, left to right. *)
Fixpoint match_all_fuel (fuel : nat) (r : regex) (s : string) : list string :=
  match fuel with
  | O => []
  | S f =>
      match exec r s with
      | Some (mt, rest, _) =>
          if String.eqb mt EmptyString then
            (* empty match: lastIndex advances by one *)
            match rest with
            | EmptyString => [mt]
            | String _ rest' => mt :: match_all_fuel f r rest'
            end
          else mt :: match_all_fuel f r rest
      | None => []
      end
  end.

Definition match_all (r : regex) (s : string) : list string :=
  match_all_fuel (S (String.length s)) r s.

End Regex.

(* ------------------------------------------------------------------ *)
(** ** The data model ([src/types.ts]) *)

Inductive NodeType := Query | Mutation | Type_ | Interface | Union | Enum | Input.

Module SchemaField.
Record t := mk {
  name : string;
  type : string;
  isNonNull : bool;
  isList : bool;
  description : option string }.
End SchemaField.

Module SchemaNode.
Record t := mk {
  type : NodeType;
  name : string;
  fields : option (list SchemaField.t);
  description : option string }.
End SchemaNode.

Inductive SourceType := Database | Api | Computed | Unknown.

Inductive DbType := Prisma | Mongoose | Sequelize | TypeORM | RawSql | DbOther.

Inductive DbOperation := FindMany | FindUnique | Create | Update | Delete | OpOther.

Inductive ApiType := Rest | GraphQL | Grpc | ApiOther.

Definition DbType_to_string (t : DbType) : string :=
  match t with
  | Prisma => "prisma" | Mongoose => "mongoose" | Sequelize => "sequelize"
  | TypeORM => "typeorm" | RawSql => "raw-sql" | DbOther => "other"
  end.

Definition ApiType_to_string (t : ApiType) : string :=
  match t with
  | Rest => "rest" | GraphQL => "graphql" | Grpc => "grpc" | ApiOther => "other"
  end.

Module DatabaseInfo.
Record t := mk {
  type : DbType;
  model : option string;
  operation : option DbOperation }.
End DatabaseInfo.

Module ApiInfo.
Record t := mk {
  type : ApiType;
  endpoint : option string;
  method : option string }.
End ApiInfo.

Module ResolverInfo.
Record t := mk {
  typeName : string;
  fieldName : string;
  path : string;
  code : string;
  sourceType : SourceType;
  databaseInfo : option DatabaseInfo.t;
  apiInfo : option ApiInfo.t;
  dependencies : option (list string) }.
End ResolverInfo.

Inductive ConnectionType := References | Extends | Implements | Calls | Resolves.

Module Connection.
Record t := mk {
  from : string;
  to : string;
  type : ConnectionType;
  description : option string }.
End Connection.

(** The part of a [GraphQLSchema] the analyzers read: its type map, in
    key order, with each type's kind, fields, field types (the wrapper
    structure of introspection's [TypeRef]) and attached resolvers
    ([field.resolve], given by its [toString()] text). *)
Module GraphQL.

Inductive TypeKind := SCALAR | OBJECT | INTERFACE | UNION | ENUM | INPUT_OBJECT.

Inductive TypeRef :=
| NON_NULL (ofType : TypeRef)
| LIST (ofType : TypeRef)
| NAMED (name : string).

Record Field := mkField {
  f_name : string;
  f_type : TypeRef;
  f_description : option string;
  f_resolve : option string }.

Record NamedType := mkType {
  t_name : string;
  t_kind : TypeKind;
  t_description : option string;
  t_fields : list Field }.

Definition Schema := list NamedType.

(** [GraphQLType.toString()] *)
Fixpoint toString (t : TypeRef) : string :=
  match t with
  | NON_NULL t' => toString t' ++ "!"
  | LIST t' => "[" ++ toString t' ++ "]"
  | NAMED n => n
  end.

End GraphQL.

(* ------------------------------------------------------------------ *)
(** ** ResolverAnalyzer ([src/resolver-analyzer.ts]) *)

Module ResolverAnalyzer.
Import JS Regex.

Fixpoint RSeq (rs : list regex) : regex :=
  match rs with
  | [] => RStr ""
  | [r] => r
  | r :: rs' => RCat r (RSeq rs')
  end.

Fixpoint RAlts (rs : list regex) : regex :=
  match rs with
  | [] => RStr ""
  | [r] => r
  | r :: rs' => RAlt r (RAlts rs')
  end.

Definition w := RPlus is_word.

(** [/prisma\.\w+\.\w+/] *)
Definition prisma_re : regex := RSeq [RStr "prisma."; w; RStr "."; w].

Definition containsPrismaPattern (text : string) : bool := test prisma_re text.

(** [text.match(/prisma\.(\w+)/)], group 1 *)
Definition prisma_model_re : regex := RSeq [RStr "prisma."; RGroup 1 w].

Definition detectPrismaModel (text : string) : option string :=
  match exec prisma_model_re text with
  | Some (_, _, caps) => group 1 caps
  | None => None
  end.

Definition detectPrismaOperation (text : string) : DbOperation :=
  if includes text ".findMany" then FindMany
  else if includes text ".findUnique" || includes text ".findFirst" then FindUnique
  else if includes text ".create" then Create
  else if includes text ".update" || includes text ".updateMany" then Update
  else if includes text ".delete" || includes text ".deleteMany" then Delete
  else OpOther.

(** [/\w+\.find\(|\w+\.findById\(|\w+\.findOne\(|\w+\.create\(/] *)
Definition mongoose_re : regex :=
  RAlts [RSeq [w; RStr ".find("]; RSeq [w; RStr ".findById("];
         RSeq [w; RStr ".findOne("]; RSeq [w; RStr ".create("]].

Definition containsMongoosePattern (text : string) : bool := test mongoose_re text.

(** [/repository\.\w+\(|getRepository\(/] *)
Definition typeorm_re : regex :=
  RAlts [RSeq [RStr "repository."; w; RStr "("]; RStr "getRepository("].

Definition containsTypeORMPattern (text : string) : bool := test typeorm_re text.

(** [/SELECT|INSERT|UPDATE|DELETE|FROM\s+\w+/] *)
Definition sql_re : regex :=
  RAlts [RStr "SELECT"; RStr "INSERT"; RStr "UPDATE"; RStr "DELETE";
         RSeq [RStr "FROM"; RPlus is_space; w]].

Definition containsSQLPattern (text : string) : bool := test sql_re (toUpperCase text).

(** [/fetch\(|axios\.|\.get\(|\.post\(|\.put\(|\.delete\(|request\(/] *)
Definition rest_re : regex :=
  RAlts [RStr "fetch("; RStr "axios."; RStr ".get("; RStr ".post(";
         RStr ".put("; RStr ".delete("; RStr "request("].

Definition containsRESTApiPattern (text : string) : bool := test rest_re text.

Definition detectRESTMethod (text : string) : option string :=
  if includes text ".get(" then Some "GET"
  else if includes text ".post(" then Some "POST"
  else if includes text ".put(" then Some "PUT"
  else if includes text ".delete(" then Some "DELETE"
  else if includes text ".patch(" then Some "PATCH"
  else None.

(** [/\.(get|post|put|delete|patch)\(\s*[Q]([^Q]+)[Q]/], group 2, where [Q]
    stands for the single and the double quote. *)
Definition endpoint_re : regex :=
  RSeq [RStr ".";
        RGroup 1 (RAlts [RStr "get"; RStr "post"; RStr "put"; RStr "delete"; RStr "patch"]);
        RStr "("; RStar is_space; RCls is_quote;
        RGroup 2 (RPlus not_quote); RCls is_quote].

Definition detectRESTEndpoint (text : string) : option string :=
  match exec endpoint_re text with
  | Some (_, _, caps) => group 2 caps
  | None => None
  end.

(** [/graphql\(|gql`|gql\s*`/] *)
Definition graphql_re : regex :=
  RAlts [RStr "graphql("; RStr "gql`"; RSeq [RStr "gql"; RStar is_space; RStr "`"]].

Definition containsGraphQLPattern (text : string) : bool := test graphql_re text.

(** [/return\s+\w+(\s*\+\s*|\s*-\s*|\s*\*\s*|\s*\/\s*|\s*\?\s*|\s*\.\w+)/] *)
Definition logic_re : regex :=
  let op o := RSeq [RStar is_space; RStr o; RStar is_space] in
  RSeq [RStr "return"; RPlus is_space; w;
        RGroup 1 (RAlts [op "+"; op "-"; op "*"; op "/"; op "?";
                         RSeq [RStar is_space; RStr "."; w]])].

Definition isLikelyComputed (text : string) : bool :=
  let hasNoDataAccess :=
    negb (containsPrismaPattern text) &&
    negb (containsMongoosePattern text) &&
    negb (containsTypeORMPattern text) &&
    negb (containsSQLPattern text) &&
    negb (containsRESTApiPattern text) &&
    negb (containsGraphQLPattern text) in
  let hasLogic := test logic_re text in
  hasNoDataAccess && hasLogic.

(** [/(\w+)\.resolvers\.(\w+)/g] *)
Definition deps_re : regex := RSeq [RGroup 1 w; RStr ".resolvers."; RGroup 2 w].

Definition detectDependencies (text : string) : list string :=
  flat_map (fun mt =>
              let parts := split_dot mt in
              if 3 <=? List.length parts
              then [nth 0 parts "" ++ "." ++ nth 2 parts ""]
              else [])
           (match_all deps_re text).

(** [analyzeResolverImplementation(node, resolverPath, filePath)], with
    [node.getText()] given as [text]. *)
Definition analyzeResolverImplementation (text resolverPath : string) : ResolverInfo.t :=
  let typeName := or_default (pop (split_dot resolverPath)) "unknown" in
  let fieldName := or_default (pop (split_dot resolverPath)) "unknown" in
  let mk st db api :=
    {| ResolverInfo.typeName := typeName;
       ResolverInfo.fieldName := fieldName;
       ResolverInfo.path := resolverPath;
       ResolverInfo.code := text;
       ResolverInfo.sourceType := st;
       ResolverInfo.databaseInfo := db;
       ResolverInfo.apiInfo := api;
       ResolverInfo.dependencies := Some (detectDependencies text) |} in
  let sourceText := text in
  if containsPrismaPattern sourceText then
    mk Database (Some {| DatabaseInfo.type := Prisma;
                         DatabaseInfo.operation := Some (detectPrismaOperation sourceText);
                         DatabaseInfo.model := detectPrismaModel sourceText |}) None
  else if containsMongoosePattern sourceText then
    mk Database (Some (DatabaseInfo.mk Mongoose None None)) None
  else if containsTypeORMPattern sourceText then
    mk Database (Some (DatabaseInfo.mk TypeORM None None)) None
  else if containsSQLPattern sourceText then
    mk Database (Some (DatabaseInfo.mk RawSql None None)) None
  else if containsRESTApiPattern sourceText then
    mk Api None (Some {| ApiInfo.type := Rest;
                         ApiInfo.method := detectRESTMethod sourceText;
                         ApiInfo.endpoint := detectRESTEndpoint sourceText |})
  else if containsGraphQLPattern sourceText then
    mk Api None (Some (ApiInfo.mk GraphQL None None))
  else if isLikelyComputed sourceText then
    mk Computed None None
  else mk Unknown None None.

(** The syntax the AST walk inspects around an object literal. *)
Inductive PropertyName := Identifier (text : string) | OtherName.

Inductive LiteralParent :=
| PropertyAssignmentParent (name : PropertyName)
| VariableDeclarationParent (name : PropertyName)
| OtherParent.

Inductive InitializerKind := FunctionExpression | ArrowFunction | IdentifierRef | OtherExpression.

Inductive Property :=
| PropertyAssignment (name : PropertyName) (kind : InitializerKind) (text : string)
| OtherProperty.

(** [analyzeObjectLiteral]: the resolver infos it pushes. *)
Definition analyzeObjectLiteral (parent : LiteralParent) (properties : list Property)
  : list ResolverInfo.t :=
  let '(isLikelyResolverMap, resolverTypeName) :=
    match parent with
    | PropertyAssignmentParent (Identifier n) => (true, n)
    | PropertyAssignmentParent OtherName => (false, "unknown")
    | VariableDeclarationParent (Identifier n) =>
        (includes (toLowerCase n) "resolver", n)
    | VariableDeclarationParent OtherName => (false, "unknown")
    | OtherParent => (false, "unknown")
    end in
  if isLikelyResolverMap then
    flat_map (fun p =>
                match p with
                | PropertyAssignment (Identifier fieldName) k text =>
                    match k with
                    | FunctionExpression | ArrowFunction | IdentifierRef =>
                        [analyzeResolverImplementation text (resolverTypeName ++ "." ++ fieldName)]
                    | OtherExpression => []
                    end
                | _ => []
                end) properties
  else [].

(** [analyzeFunction]: a function bound to a variable declaration. *)
Definition analyzeFunction (parentName : PropertyName) (text : string) : list ResolverInfo.t :=
  match parentName with
  | Identifier functionName =>
      if includes (toLowerCase functionName) "resolver"
      then [analyzeResolverImplementation text functionName]
      else []
  | OtherName => []
  end.

(** [analyzeResolverFunction]: updates the info in place; here it returns
    the updated info. *)
Definition analyzeResolverFunction (resolverInfo : ResolverInfo.t) : ResolverInfo.t :=
  let resolverCode := ResolverInfo.code resolverInfo in
  if containsPrismaPattern resolverCode then
    {| ResolverInfo.typeName := ResolverInfo.typeName resolverInfo;
       ResolverInfo.fieldName := ResolverInfo.fieldName resolverInfo;
       ResolverInfo.path := ResolverInfo.path resolverInfo;
       ResolverInfo.code := resolverCode;
       ResolverInfo.sourceType := Database;
       ResolverInfo.databaseInfo :=
         Some {| DatabaseInfo.type := Prisma;
                 DatabaseInfo.model := detectPrismaModel resolverCode;
                 DatabaseInfo.operation := Some (detectPrismaOperation resolverCode) |};
       ResolverInfo.apiInfo := ResolverInfo.apiInfo resolverInfo;
       ResolverInfo.dependencies := ResolverInfo.dependencies resolverInfo |}
  else resolverInfo.

Definition analyzeResolversFromSchema (schema : GraphQL.Schema) : list ResolverInfo.t :=
  flat_map (fun type =>
              let typeName := GraphQL.t_name type in
              if startsWith typeName "__" then []
              else match GraphQL.t_kind type with
                   | GraphQL.OBJECT =>
                       flat_map (fun field =>
                                   match GraphQL.f_resolve field with
                                   | Some resolver =>
                                       [analyzeResolverFunction
                                          {| ResolverInfo.typeName := typeName;
                                             ResolverInfo.fieldName := GraphQL.f_name field;
                                             ResolverInfo.path := typeName ++ "." ++ GraphQL.f_name field;
                                             ResolverInfo.code := resolver;
                                             ResolverInfo.sourceType := Unknown;
                                             ResolverInfo.databaseInfo := None;
                                             ResolverInfo.apiInfo := None;
                                             ResolverInfo.dependencies := None |}]
                                   | None => []
                                   end)
                                (GraphQL.t_fields type)
                   | _ => []
                   end)
           schema.

End ResolverAnalyzer.

(* ------------------------------------------------------------------ *)
(** ** SchemaAnalyzer ([src/schema-analyzer.ts]) *)

Module SchemaAnalyzer.
Import JS GraphQL.

(** The errors the analyzer raises. [NotLoaded] is the
    [Error("No schema loaded. Call loadSchema() first.")] thrown by the
    query operations; [ParseError] the one [loadSchema] rethrows;
    [TypeError] the JavaScript [TypeError] raised inside [analyze] when
    [getTypeName] reads [.kind] of an [ofType] the introspection query did
    not select (see [analyze]). *)
Inductive SchemaError := NotLoaded | ParseError (diagnostic : string) | TypeError.

Inductive Result (A : Type) := Ok (a : A) | Err (e : SchemaError).
Arguments Ok {A} a.
Arguments Err {A} e.

(** The analyzer's state: the private field [schema], [null] until
    [loadSchema] succeeds. *)
Definition State := option Schema.

Definition determineNodeType (type : NamedType) : option NodeType :=
  match t_kind type with
  | OBJECT =>
      if String.eqb (t_name type) "Query" then Some Query
      else if String.eqb (t_name type) "Mutation" then Some Mutation
      else Some Type_
  | INTERFACE => Some Interface
  | UNION => Some Union
  | ENUM => Some Enum
  | INPUT_OBJECT => Some Input
  | SCALAR => None
  end.

Fixpoint getTypeName (typeObj : TypeRef) : string :=
  match typeObj with
  | NON_NULL t => getTypeName t
  | LIST t => getTypeName t
  | NAMED n => n
  end.

Definition isNonNull (typeObj : TypeRef) : bool :=
  match typeObj with
  | NON_NULL _ => true
  | _ => false
  end.

Fixpoint isList (typeObj : TypeRef) : bool :=
  match typeObj with
  | NON_NULL t => isList t
  | LIST _ => true
  | NAMED _ => false
  end.

(** [x || undefined] on a description. *)
Definition orUndefined (d : option string) : option string :=
  match d with
  | Some s => if String.eqb s EmptyString then None else Some s
  | None => None
  end.

(** The [SchemaField] built for one introspected field. *)
Definition toSchemaField (field : Field) : SchemaField.t :=
  {| SchemaField.name := f_name field;
     SchemaField.type := getTypeName (f_type field);
     SchemaField.isNonNull := isNonNull (f_type field);
     SchemaField.isList := isList (f_type field);
     SchemaField.description := orUndefined (f_description field) |}.

Definition analyzeTypes (types : list NamedType) : list SchemaNode.t :=
  flat_map (fun type =>
              match determineNodeType type with
              | None => []
              | Some nodeType =>
                  [{| SchemaNode.type := nodeType;
                      SchemaNode.name := t_name type;
                      SchemaNode.description := orUndefined (t_description type);
                      SchemaNode.fields :=
                        match t_kind type with
                        | OBJECT | INTERFACE => Some (map toSchemaField (t_fields type))
                        | _ => None
                        end |}]
              end)
           (filter (fun type => negb (startsWith (t_name type) "__")) types).

(** [analyze] does not walk the schema itself: it reads the result of
    [introspectionFromSchema], whose field types come from the [TypeRef]
    fragment of graphql 16's introspection query. That fragment selects
    [ofType] to a fixed depth, [typeRefDepth] nested levels below the
    field type; a wrapper at the last level has no [ofType] property in the
    result. [IntrospectionTypeRef] is such a result: [ofType = None] is the
    missing property. *)
#[warnings="-register-all"]
Inductive IntrospectionTypeRef :=
  | I_NON_NULL (ofType : option IntrospectionTypeRef)
  | I_LIST (ofType : option IntrospectionTypeRef)
  | I_NAMED (name : string).

Definition typeRefDepth : nat := 8.

(** The introspected form of a field type, with [levels] more [ofType]
    selections available. *)
Fixpoint introspectTypeRef (levels : nat) (t : TypeRef) : IntrospectionTypeRef :=
  match t with
  | NON_NULL t' =>
      I_NON_NULL (match levels with 0 => None | S l => Some (introspectTypeRef l t') end)
  | LIST t' =>
      I_LIST (match levels with 0 => None | S l => Some (introspectTypeRef l t') end)
  | NAMED n => I_NAMED n
  end.

(** [getTypeName] on an introspected type: [None] is the [TypeError] of
    [typeObj.kind] with [typeObj] undefined. *)
Fixpoint getTypeNameI (typeObj : IntrospectionTypeRef) : option string :=
  match typeObj with
  | I_NON_NULL (Some t) | I_LIST (Some t) => getTypeNameI t
  | I_NON_NULL None | I_LIST None => None
  | I_NAMED n => Some n
  end.

(** Whether every [getTypeName(field.type)] call of the loop of [analyze]
    returns: it is called on each field of each non-[__] [OBJECT] or
    [INTERFACE] type (for these [determineNodeType] never answers [null]). *)
Definition introspectionReadable (schema : Schema) : bool :=
  forallb (fun type =>
             match t_kind type with
             | OBJECT | INTERFACE =>
                 forallb (fun field =>
                            match getTypeNameI (introspectTypeRef typeRefDepth (f_type field)) with
                            | Some _ => true
                            | None => false
                            end)
                         (t_fields type)
             | _ => true
             end)
          (filter (fun type => negb (startsWith (t_name type) "__")) schema).

(** [analyze]: throws [NotLoaded] without a schema, and the uncaught
    [TypeError] when some [getTypeName] call fails. Otherwise every
    introspected field type is complete, [getTypeName], [isNonNull] and
    [isList] read it as they would the schema's own type (lemma
    [getTypeNameI_introspect]), and the nodes are [analyzeTypes schema]. *)
Definition analyze (st : State) : Result (list SchemaNode.t) :=
  match st with
  | None => Err NotLoaded
  | Some schema =>
      if introspectionReadable schema then Ok (analyzeTypes schema) else Err TypeError
  end.

(** The [while] loop unwrapping a field type. *)
Fixpoint unwrap (fieldType : TypeRef) : TypeRef :=
  if includes (toString fieldType) "[" || includes (toString fieldType) "!" then
    match fieldType with
    | NON_NULL t | LIST t => unwrap t
    | NAMED _ => fieldType (* no [ofType]: break *)
    end
  else fieldType.

Definition hasGetFields (k : TypeKind) : bool :=
  match k with
  | OBJECT | INTERFACE | INPUT_OBJECT => true
  | _ => false
  end.

Definition scalars : list string := ["ID"; "String"; "Int"; "Float"; "Boolean"].

Definition typeDependencies (type : NamedType) : list string :=
  if hasGetFields (t_kind type) then
    fold_left (fun deps field =>
                 let s := toString (unwrap (f_type field)) in
                 if negb (String.eqb s EmptyString) && negb (list_includes scalars s) then
                   if negb (list_includes deps s) then app deps [s] else deps
                 else deps)
              (t_fields type) []
  else [].

Definition findTypeDependencies (st : State) : Result (list (string * list string)) :=
  match st with
  | None => Err NotLoaded
  | Some schema =>
      Ok (map (fun type => (t_name type, typeDependencies type))
              (filter (fun type => negb (startsWith (t_name type) "__")) schema))
  end.

End SchemaAnalyzer.

(* ------------------------------------------------------------------ *)
(** ** StaticAnalyzer ([src/static-analyzer.ts]) *)

Module StaticAnalyzer.
Import JS.

Module AnalysisResult.
Record t := mk {
  schema : list SchemaNode.t;
  resolvers : list ResolverInfo.t;
  connections : list Connection.t }.
End AnalysisResult.

Definition edge (from to : string) (type : ConnectionType) (description : string) : Connection.t :=
  {| Connection.from := from; Connection.to := to; Connection.type := type;
     Connection.description := Some description |}.

(** The edges pushed for one resolver, in push order. *)
Definition resolverConnections (resolver : ResolverInfo.t) : list Connection.t :=
  let typeName := ResolverInfo.typeName resolver in
  let fieldName := ResolverInfo.fieldName resolver in
  let from := typeName ++ "." ++ fieldName in
  app [edge from typeName Resolves ("Resolver for " ++ typeName ++ "." ++ fieldName)]
  (app match ResolverInfo.sourceType resolver, ResolverInfo.databaseInfo resolver,
           ResolverInfo.apiInfo resolver with
     | Database, Some db, _ =>
         let model := or_default (DatabaseInfo.model db) "unknown" in
         [edge from ("DB:" ++ model) Calls
               ("Accesses " ++ model ++ " via " ++ DbType_to_string (DatabaseInfo.type db))]
     | Api, _, Some api =>
         let type := ApiType_to_string (ApiInfo.type api) in
         [edge from ("API:" ++ or_default (ApiInfo.endpoint api) type) Calls
               ("Calls " ++ type ++ " API "
                ++ match ApiInfo.endpoint api with
                   | Some e => if String.eqb e EmptyString then "" else "at " ++ e
                   | None => ""
                   end)]
     | _, _, _ => []
     end
  match ResolverInfo.dependencies resolver with
  | Some deps => map (fun dependency =>
                        edge from dependency Calls ("Depends on " ++ dependency)) deps
  | None => []
  end).

Definition isScalarName (t : string) : bool :=
  list_includes ["ID"; "String"; "Int"; "Float"; "Boolean"] t.

(** The [references] edges pushed for one schema node. *)
Definition nodeConnections (node : SchemaNode.t) : list Connection.t :=
  match SchemaNode.fields node with
  | Some fields =>
      flat_map (fun field =>
                  if negb (isScalarName (SchemaField.type field)) then
                    [edge (SchemaNode.name node) (strip_wrappers (SchemaField.type field)) References
                          (SchemaNode.name node ++ " references " ++ SchemaField.type field
                           ++ " via " ++ SchemaField.name field ++ " field")]
                  else [])
               fields
  | None => []
  end.

Definition analyzeConnections (schemaNodes : list SchemaNode.t)
           (resolverInfos : list ResolverInfo.t) : AnalysisResult.t :=
  {| AnalysisResult.schema := schemaNodes;
     AnalysisResult.resolvers := resolverInfos;
     AnalysisResult.connections :=
       app (flat_map resolverConnections resolverInfos) (flat_map nodeConnections schemaNodes) |}.

End StaticAnalyzer.

(* ------------------------------------------------------------------ *)
(** ** Visualizer ([src/visualizer.ts]): the nodes of the graph *)

Module Visualizer.
Import JS.

Inductive Group := SchemaGroup | ResolverGroup | DataSourceGroup.

(** The fields of a graph node that [prepareNodes] keys on: [id], [label]
    (the second path segment of a resolver, [undefined] when missing) and
    [group]. *)
Module VisNode.
Record t := mk {
  id : string;
  label : option string;
  group : Group }.
End VisNode.

(** [${model || "unknown"}]-style ids and [model ? ... : type] labels of
    the data-source node of one resolver; [("", "")] when it has none. *)
Definition sourceNode (resolver : ResolverInfo.t) : string * string :=
  if (match ResolverInfo.sourceType resolver with Database => true | _ => false end) then
    match ResolverInfo.databaseInfo resolver with
    | Some db =>
        let type := DbType_to_string (DatabaseInfo.type db) in
        ("db_" ++ type ++ "_" ++ or_default (DatabaseInfo.model db) "unknown",
         match DatabaseInfo.model db with
         | Some model => if String.eqb model "" then type else model ++ " (" ++ type ++ ")"
         | None => type
         end)
    | None => ("", "")
    end
  else if (match ResolverInfo.sourceType resolver with Api => true | _ => false end) then
    match ResolverInfo.apiInfo resolver with
    | Some api =>
        let type := ApiType_to_string (ApiInfo.type api) in
        ("api_" ++ type ++ "_" ++ or_default (ApiInfo.endpoint api) "unknown",
         match ApiInfo.endpoint api with
         | Some endpoint => if String.eqb endpoint "" then type else endpoint ++ " (" ++ type ++ ")"
         | None => type
         end)
    | None => ("", "")
    end
  else ("", "").

(** One iteration of the resolver loop of [prepareNodes]. *)
Definition addResolver (groupBySource : bool) (nodes : list VisNode.t)
           (resolver : ResolverInfo.t) : list VisNode.t :=
  let parts := split_dot (ResolverInfo.path resolver) in
  let fieldName := nth_error parts 1 in
  let nodes := app nodes [VisNode.mk (ResolverInfo.path resolver) fieldName ResolverGroup] in
  if groupBySource &&
     (match ResolverInfo.sourceType resolver with Unknown | Computed => false | _ => true end)
  then
    let '(sourceNodeId, sourceNodeLabel) := sourceNode resolver in
    if negb (String.eqb sourceNodeId "") &&
       negb (existsb (fun n => String.eqb (VisNode.id n) sourceNodeId) nodes)
    then app nodes [VisNode.mk sourceNodeId (Some sourceNodeLabel) DataSourceGroup]
    else nodes
  else nodes.

Definition prepareNodes (schema : list SchemaNode.t) (resolvers : list ResolverInfo.t)
           (groupBySource : bool) : list VisNode.t :=
  fold_left (addResolver groupBySource)
            resolvers
            (map (fun node => VisNode.mk (SchemaNode.name node) (Some (SchemaNode.name node))
                                         SchemaGroup) schema).

End Visualizer.

(* ------------------------------------------------------------------ *)
(** ** Collecting resolver files ([loadResolverFiles]) *)

Module ResolverFiles.

(** What [fs.statSync] reports for an existing path: a file, a directory
    with its [readdirSync] entries (name and stat, in listing order), or
    neither. *)
Inductive Stat := IsFile | IsDirectory (entries : Entries) | IsOther
with Entries := ENil | ECons (file : string) (stat : Stat) (rest : Entries).

(** [path.join(dirPath, file)], without the normalization of [.], [..]
    and doubled separators. *)
Definition join (dirPath file : string) : string := dirPath ++ "/" ++ file.

(** [s.endsWith(p)] *)
Fixpoint endsWith (s p : string) : bool :=
  String.eqb s p ||
  match s with
  | EmptyString => false
  | String _ s' => endsWith s' p
  end.

Definition isSourceFile (file : string) : bool := endsWith file ".ts" || endsWith file ".js".

Fixpoint addFilesFromDirectory (dirPath : string) (files : Entries) : list string :=
  match files with
  | ENil => []
  | ECons file stat rest =>
      app match stat with
          | IsDirectory entries => addFilesFromDirectory (join dirPath file) entries
          | _ => if isSourceFile file then [join dirPath file] else []
          end
          (addFilesFromDirectory dirPath rest)
  end.

(** [loadResolverFiles]: each given path with its stat, [None] when
    [fs.existsSync] is false; the resulting [resolverFiles]. *)
Definition loadResolverFiles (resolverPaths : list (string * option Stat)) : list string :=
  flat_map (fun '(resolverPath, stat) =>
              match stat with
              | None => []
              | Some (IsDirectory entries) => addFilesFromDirectory resolverPath entries
              | Some IsFile => if isSourceFile resolverPath then [resolverPath] else []
              | Some IsOther => []
              end) resolverPaths.

End ResolverFiles.

(* ------------------------------------------------------------------ *)
(** ** Enrichment merge policy *)

Module Enrichment.
Import JS.

(** Modelled from the spec: the merge step of the LLM analyzer
    ([src/llm-analyzer.ts], imported by the CLI but not among the sources).
    Spec 4.4: a resolver already classified as something other than
    [unknown] is left untouched; a resolver still [unknown] adopts the
    suggestion's classification and detail object verbatim if one is
    offered; dependencies are unioned. *)
Module Suggestion.
Record t := mk {
  path : string;
  sourceType : option SourceType;
  databaseInfo : option DatabaseInfo.t;
  apiInfo : option ApiInfo.t;
  dependencies : list string }.
End Suggestion.

Definition union (xs ys : list string) : list string :=
  fold_left (fun acc y => if list_includes acc y then acc else app acc [y]) ys xs.

Definition isUnknown (st : SourceType) : bool :=
  match st with Unknown => true | _ => false end.

(** Modelled from the spec: merge the insight offered for one resolver. *)
Definition mergeResolver (suggestions : list Suggestion.t) (r : ResolverInfo.t) : ResolverInfo.t :=
  match find (fun sg => String.eqb (Suggestion.path sg) (ResolverInfo.path r)) suggestions with
  | None => r
  | Some sg =>
      let deps := Some (union (match ResolverInfo.dependencies r with
                               | Some d => d | None => [] end)
                              (Suggestion.dependencies sg)) in
      match isUnknown (ResolverInfo.sourceType r), Suggestion.sourceType sg with
      | true, Some st =>
          {| ResolverInfo.typeName := ResolverInfo.typeName r;
             ResolverInfo.fieldName := ResolverInfo.fieldName r;
             ResolverInfo.path := ResolverInfo.path r;
             ResolverInfo.code := ResolverInfo.code r;
             ResolverInfo.sourceType := st;
             ResolverInfo.databaseInfo := Suggestion.databaseInfo sg;
             ResolverInfo.apiInfo := Suggestion.apiInfo sg;
             ResolverInfo.dependencies := deps |}
      | _, _ =>
          {| ResolverInfo.typeName := ResolverInfo.typeName r;
             ResolverInfo.fieldName := ResolverInfo.fieldName r;
             ResolverInfo.path := ResolverInfo.path r;
             ResolverInfo.code := ResolverInfo.code r;
             ResolverInfo.sourceType := ResolverInfo.sourceType r;
             ResolverInfo.databaseInfo := ResolverInfo.databaseInfo r;
             ResolverInfo.apiInfo := ResolverInfo.apiInfo r;
             ResolverInfo.dependencies := deps |}
      end
  end.

(** Modelled from the spec: the merged resolver collection. *)
Definition mergeResolvers (resolvers : list ResolverInfo.t) (suggestions : list Suggestion.t)
  : list ResolverInfo.t :=
  map (mergeResolver suggestions) resolvers.

(** The classification of a resolver: its kind and detail objects. *)
Definition classification (r : ResolverInfo.t)
  : SourceType * option DatabaseInfo.t * option ApiInfo.t :=
  (ResolverInfo.sourceType r, ResolverInfo.databaseInfo r, ResolverInfo.apiInfo r).

End Enrichment.

(* ================================================================== *)
(** * Properties *)

Import ResolverAnalyzer SchemaAnalyzer StaticAnalyzer.

(** The [resolves] edges of a connection list. *)
Definition resolvesEdges (cs : list Connection.t) : list Connection.t :=
  filter (fun c => match Connection.type c with Resolves => true | _ => false end) cs.

Definition referencesEdges (cs : list Connection.t) : list Connection.t :=
  filter (fun c => match Connection.type c with References => true | _ => false end) cs.

(** ** C1: the [resolves] edge of a file-analyzed resolver *)

(** Claim C1 (code_bug): the Graph Synthesizer should emit for a resolver
    with path [Query.users] one [resolves] edge from [Query.users] to
    [Query]. The resolver built by [analyzeResolverImplementation] for a
    [Query: { users: ... }] map entry carries [typeName = fieldName =
    "users"] (the last segment of the path), so the single [resolves] edge
    goes from [users.users] to [users]. *)
Theorem C1_resolves_edge_of_query_users :
  let r := analyzeResolverImplementation "() => users" "Query.users" in
  analyzeObjectLiteral (PropertyAssignmentParent (Identifier "Query"))
                       [PropertyAssignment (Identifier "users") ArrowFunction "() => users"] = [r] /\
  ResolverInfo.path r = "Query.users" /\
  map (fun c => (Connection.from c, Connection.to c))
      (resolvesEdges (AnalysisResult.connections (analyzeConnections [] [r])))
  = [("users.users", "users")] /\
  (* the schema-driven entry point builds the same resolver with
     [typeName = "Query"], and its edge is the one the spec describes *)
  map (fun c => (Connection.from c, Connection.to c))
      (resolvesEdges (AnalysisResult.connections
         (analyzeConnections []
            (analyzeResolversFromSchema
               [GraphQL.mkType "Query" GraphQL.OBJECT None
                  [GraphQL.mkField "users" (GraphQL.NAMED "User") None (Some "() => users")]]))))
  = [("Query.users", "Query")].
Proof. vm_compute. auto. Qed.

(** ** C2: unwrapping of field types *)

Module TypeRefSpec.
Import GraphQL.

(** The reading of the spec: the innermost named type, whether a LIST or
    a NON_NULL wrapper occurs at any depth, and whether the outermost
    wrapper is NON_NULL. *)
Fixpoint innermostName (t : TypeRef) : string :=
  match t with
  | NON_NULL t' | LIST t' => innermostName t'
  | NAMED n => n
  end.

Fixpoint anyList (t : TypeRef) : bool :=
  match t with
  | NON_NULL t' => anyList t'
  | LIST _ => true
  | NAMED _ => false
  end.

Fixpoint anyNonNull (t : TypeRef) : bool :=
  match t with
  | NON_NULL _ => true
  | LIST t' => anyNonNull t'
  | NAMED _ => false
  end.

Definition outermostNonNull (t : TypeRef) : bool :=
  match t with
  | NON_NULL _ => true
  | _ => false
  end.

End TypeRefSpec.

Lemma getTypeName_innermost (t : GraphQL.TypeRef) :
  getTypeName t = TypeRefSpec.innermostName t.
Proof. induction t; simpl; auto. Qed.

(** [isList] finds a LIST wrapper at any depth: below a LIST it stops, but
    it is [true] already. *)
Lemma isList_anyList (t : GraphQL.TypeRef) : isList t = TypeRefSpec.anyList t.
Proof. induction t; simpl; auto. Qed.

Lemma analyzeTypes_field (schema : GraphQL.Schema) (n : SchemaNode.t)
      (fs : list SchemaField.t) (f : SchemaField.t) :
  In n (analyzeTypes schema) -> SchemaNode.fields n = Some fs -> In f fs ->
  exists t gf, In t schema /\ In gf (GraphQL.t_fields t) /\ f = toSchemaField gf.
Proof.
  unfold analyzeTypes. intros Hn Hfs Hf.
  apply in_flat_map in Hn as [t [Ht Hn]].
  apply filter_In in Ht as [Ht _].
  destruct (determineNodeType t); [|destruct Hn].
  destruct Hn as [<- | []]; simpl in Hfs.
  exists t.
  destruct (GraphQL.t_kind t); try discriminate;
    injection Hfs as <-; apply in_map_iff in Hf as [gf [<- Hgf]];
    exists gf; auto.
Qed.

(** The field built for [authors: [User!]]. *)
Definition authors_field : GraphQL.Field :=
  GraphQL.mkField "authors" (GraphQL.LIST (GraphQL.NON_NULL (GraphQL.NAMED "User"))) None None.

(** Claim C2, counterexample: for a field of type [[User!]] the Schema
    Model Builder reports [isNonNull = false], although a NON_NULL wrapper
    occurs inside the list; the claim requires [true]. *)
Lemma C2_list_of_nonnull_is_nullable :
  analyze (Some [GraphQL.mkType "Post" GraphQL.OBJECT None [authors_field]])
  = Ok [{| SchemaNode.type := Type_; SchemaNode.name := "Post"; SchemaNode.description := None;
           SchemaNode.fields :=
             Some [{| SchemaField.name := "authors"; SchemaField.type := "User";
                      SchemaField.isNonNull := false; SchemaField.isList := true;
                      SchemaField.description := None |}] |}] /\
  TypeRefSpec.anyNonNull (GraphQL.f_type authors_field) = true.
Proof. vm_compute. auto. Qed.

(** Claim C2 (amended): every field of every node the Schema Model
    Builder returns comes from a schema field whose type's innermost named
    type is its [type]; [isList] is true iff a LIST wrapper occurs at any
    depth; [isNonNull] is true iff the outermost wrapper is NON_NULL (a
    NON_NULL inside a LIST does not set it). So [[User!]] yields
    [type = "User"], [isList = true], [isNonNull = false]. *)
Theorem C2_field_unwrapping (schema : GraphQL.Schema) (nodes : list SchemaNode.t)
        (n : SchemaNode.t) (fs : list SchemaField.t) (f : SchemaField.t) :
  analyze (Some schema) = Ok nodes ->
  In n nodes -> SchemaNode.fields n = Some fs -> In f fs ->
  (exists t gf, In t schema /\ In gf (GraphQL.t_fields t) /\
     SchemaField.name f = GraphQL.f_name gf /\
     SchemaField.type f = TypeRefSpec.innermostName (GraphQL.f_type gf) /\
     SchemaField.isList f = TypeRefSpec.anyList (GraphQL.f_type gf) /\
     SchemaField.isNonNull f = TypeRefSpec.outermostNonNull (GraphQL.f_type gf)) /\
  (SchemaField.type (toSchemaField authors_field) = "User" /\
   SchemaField.isList (toSchemaField authors_field) = true /\
   SchemaField.isNonNull (toSchemaField authors_field) = false).
Proof.
  intros Ha Hn Hfs Hf. unfold analyze in Ha.
  destruct (introspectionReadable schema); [injection Ha as <- | discriminate Ha].
  split; [| vm_compute; auto].
  destruct (analyzeTypes_field schema n fs f Hn Hfs Hf) as [t [gf [Ht [Hgf ->]]]].
  exists t, gf. unfold toSchemaField; simpl.
  rewrite getTypeName_innermost, isList_anyList.
  repeat split; auto.
Qed.

Lemma C2_field_unwrapping_witness :
  exists f, f = toSchemaField authors_field /\
  ((exists t gf, In t [GraphQL.mkType "Post" GraphQL.OBJECT None [authors_field]] /\
     In gf (GraphQL.t_fields t) /\
     SchemaField.name f = GraphQL.f_name gf /\
     SchemaField.type f = TypeRefSpec.innermostName (GraphQL.f_type gf) /\
     SchemaField.isList f = TypeRefSpec.anyList (GraphQL.f_type gf) /\
     SchemaField.isNonNull f = TypeRefSpec.outermostNonNull (GraphQL.f_type gf)) /\
   (SchemaField.type (toSchemaField authors_field) = "User" /\
    SchemaField.isList (toSchemaField authors_field) = true /\
    SchemaField.isNonNull (toSchemaField authors_field) = false)).
Proof.
  exists (toSchemaField authors_field). split; [reflexivity|].
  apply (C2_field_unwrapping [GraphQL.mkType "Post" GraphQL.OBJECT None [authors_field]]
           (analyzeTypes [GraphQL.mkType "Post" GraphQL.OBJECT None [authors_field]])
           (hd (SchemaNode.mk Type_ "" None None)
               (analyzeTypes [GraphQL.mkType "Post" GraphQL.OBJECT None [authors_field]]))
           [toSchemaField authors_field]).
  - reflexivity.
  - vm_compute. left. reflexivity.
  - vm_compute. reflexivity.
  - simpl. left. reflexivity.
Defined.

(** ** C3: the schema-driven entry point against the file-based one *)

Definition fetch_text : string := "return fetch('https://x/y').then(r=>r.json())".

Definition query_users_schema (resolverText : string) : GraphQL.Schema :=
  [GraphQL.mkType "Query" GraphQL.OBJECT None
     [GraphQL.mkField "users" (GraphQL.LIST (GraphQL.NAMED "User")) None (Some resolverText)]].

(** Claim C3 (code_bug): the two classification paths should agree on
    every resolver text. On a [fetch] resolver the file-based classifier
    reports [api] with REST details, while [analyzeResolversFromSchema]
    (through [analyzeResolverFunction], which only tests the prisma
    signature) leaves it [unknown] with no details. *)
Theorem C3_schema_path_misses_api :
  map (fun r => (ResolverInfo.sourceType r, ResolverInfo.databaseInfo r, ResolverInfo.apiInfo r))
      (analyzeResolversFromSchema (query_users_schema fetch_text))
  = [(Unknown, None, None)] /\
  (ResolverInfo.sourceType (analyzeResolverImplementation fetch_text "Query.users"),
   ResolverInfo.databaseInfo (analyzeResolverImplementation fetch_text "Query.users"),
   ResolverInfo.apiInfo (analyzeResolverImplementation fetch_text "Query.users"))
  = (Api, None, Some (ApiInfo.mk Rest None None)).
Proof. vm_compute. auto. Qed.

(** ** C4: database signatures take precedence over API signatures *)

Definition databaseSignature (text : string) : bool :=
  containsPrismaPattern text || containsMongoosePattern text
  || containsTypeORMPattern text || containsSQLPattern text.

(** Claim C4: a text that matches a database signature and an API
    signature is classified [database] by [analyzeResolverImplementation],
    with a database detail and no API detail. *)
Theorem C4_database_before_api (text resolverPath : string) :
  databaseSignature text = true ->
  containsRESTApiPattern text || containsGraphQLPattern text = true ->
  ResolverInfo.sourceType (analyzeResolverImplementation text resolverPath) = Database /\
  ResolverInfo.apiInfo (analyzeResolverImplementation text resolverPath) = None /\
  ResolverInfo.databaseInfo (analyzeResolverImplementation text resolverPath) <> None.
Proof.
  unfold databaseSignature, analyzeResolverImplementation. intros Hdb _.
  destruct (containsPrismaPattern text); simpl; [repeat split; discriminate|].
  destruct (containsMongoosePattern text); simpl; [repeat split; discriminate|].
  destruct (containsTypeORMPattern text); simpl; [repeat split; discriminate|].
  destruct (containsSQLPattern text); simpl; [repeat split; discriminate|].
  discriminate Hdb.
Qed.

Lemma C4_database_before_api_witness :
  databaseSignature "return db.query('SELECT 1').then(() => fetch('/x'))" = true /\
  ResolverInfo.sourceType
    (analyzeResolverImplementation "return db.query('SELECT 1').then(() => fetch('/x'))" "Query.x")
  = Database.
Proof.
  split; [vm_compute; reflexivity|].
  apply (C4_database_before_api "return db.query('SELECT 1').then(() => fetch('/x'))" "Query.x");
    vm_compute; reflexivity.
Defined.

(** ** C5: the detail objects agree with the source kind *)

Definition detailsConsistent (r : ResolverInfo.t) : Prop :=
  (ResolverInfo.databaseInfo r = None \/ ResolverInfo.apiInfo r = None) /\
  (ResolverInfo.sourceType r = Unknown ->
     ResolverInfo.databaseInfo r = None /\ ResolverInfo.apiInfo r = None) /\
  (ResolverInfo.databaseInfo r <> None -> ResolverInfo.sourceType r = Database) /\
  (ResolverInfo.apiInfo r <> None -> ResolverInfo.sourceType r = Api).

(** The resolver infos produced by the classifier's entry points. *)
Inductive classified : ResolverInfo.t -> Prop :=
| classified_object_literal parent properties r :
    In r (analyzeObjectLiteral parent properties) -> classified r
| classified_function parentName text r :
    In r (analyzeFunction parentName text) -> classified r
| classified_schema schema r :
    In r (analyzeResolversFromSchema schema) -> classified r.

Lemma analyzeResolverImplementation_consistent (text resolverPath : string) :
  detailsConsistent (analyzeResolverImplementation text resolverPath).
Proof.
  unfold analyzeResolverImplementation, detailsConsistent.
  repeat match goal with
         | |- context [if ?b then _ else _] => destruct b
         end; simpl;
    repeat split; auto; try discriminate; intros H; try discriminate; contradiction.
Qed.

Lemma analyzeResolverFunction_consistent (r : ResolverInfo.t) :
  ResolverInfo.sourceType r = Unknown -> ResolverInfo.databaseInfo r = None ->
  ResolverInfo.apiInfo r = None ->
  detailsConsistent (analyzeResolverFunction r).
Proof.
  intros Hs Hd Ha. unfold analyzeResolverFunction, detailsConsistent.
  destruct (containsPrismaPattern (ResolverInfo.code r)); simpl;
    rewrite ?Hs, ?Hd, ?Ha; repeat split; auto; try discriminate; intros H; contradiction.
Qed.

(** Claim C5: every resolver info produced by an entry point of the
    classifier (a resolver map, a resolver function, or the schema-driven
    entry point) never carries both detail objects; an [unknown] one
    carries neither; a database detail only comes with [database] and an
    API detail only with [api]. *)
Theorem C5_details_exclusive (r : ResolverInfo.t) :
  classified r -> detailsConsistent r.
Proof.
  intros Hc. destruct Hc as [parent props r Hr | pn text r Hr | schema r Hr].
  - unfold analyzeObjectLiteral in Hr.
    destruct (match parent with
              | PropertyAssignmentParent (Identifier n) => (true, n)
              | PropertyAssignmentParent OtherName => (false, "unknown")
              | VariableDeclarationParent (Identifier n) =>
                  (JS.includes (JS.toLowerCase n) "resolver", n)
              | VariableDeclarationParent OtherName => (false, "unknown")
              | OtherParent => (false, "unknown")
              end) as [[|] tn]; [|destruct Hr].
    apply in_flat_map in Hr as [p [_ Hp]].
    destruct p as [[fname|] k text|]; [|destruct Hp|destruct Hp].
    destruct k; simpl in Hp; [..|destruct Hp];
      destruct Hp as [<- | []]; apply analyzeResolverImplementation_consistent.
  - unfold analyzeFunction in Hr. destruct pn as [fname|]; [|destruct Hr].
    destruct (JS.includes (JS.toLowerCase fname) "resolver"); [|destruct Hr].
    destruct Hr as [<- | []]. apply analyzeResolverImplementation_consistent.
  - unfold analyzeResolversFromSchema in Hr.
    apply in_flat_map in Hr as [t [_ Ht]].
    destruct (JS.startsWith (GraphQL.t_name t) "__"); [destruct Ht|].
    destruct (GraphQL.t_kind t); try destruct Ht.
    apply in_flat_map in Ht as [fd [_ Hfd]].
    destruct (GraphQL.f_resolve fd); [|destruct Hfd].
    destruct Hfd as [<- | []].
    apply analyzeResolverFunction_consistent; reflexivity.
Qed.

Lemma C5_details_exclusive_witness :
  detailsConsistent (analyzeResolverImplementation "return axios.delete('/x')" "Query.x").
Proof.
  apply (C5_details_exclusive (analyzeResolverImplementation "return axios.delete('/x')" "Query.x")).
  apply (classified_object_literal (PropertyAssignmentParent (Identifier "Query"))
           [PropertyAssignment (Identifier "x") ArrowFunction "return axios.delete('/x')"]).
  vm_compute. left. reflexivity.
Defined.

(** ** C6: the merge never overrides a known classification *)

(** Claim C6 (spec-modelled): after merging external suggestions, every
    resolver whose static classification is not [unknown] keeps its path,
    kind and detail objects; hence only an [unknown] resolver can change
    its classification. *)
Theorem C6_merge_keeps_known (resolvers : list ResolverInfo.t)
        (suggestions : list Enrichment.Suggestion.t) (i : nat) (r : ResolverInfo.t) :
  nth_error resolvers i = Some r ->
  ResolverInfo.sourceType r <> Unknown ->
  exists r', nth_error (Enrichment.mergeResolvers resolvers suggestions) i = Some r' /\
             ResolverInfo.path r' = ResolverInfo.path r /\
             Enrichment.classification r' = Enrichment.classification r.
Proof.
  intros Hi Hk. unfold Enrichment.mergeResolvers.
  rewrite nth_error_map, Hi. simpl.
  eexists; split; [reflexivity|].
  unfold Enrichment.mergeResolver.
  destruct (find _ suggestions) as [sg|]; [|auto].
  destruct (ResolverInfo.sourceType r) eqn:Hs; try (exfalso; apply Hk; reflexivity);
    unfold Enrichment.classification; simpl; rewrite ?Hs; auto.
Qed.

Definition static_db_resolver : ResolverInfo.t :=
  analyzeResolverImplementation "return prisma.user.findMany()" "Query.users".

Definition api_suggestion : Enrichment.Suggestion.t :=
  Enrichment.Suggestion.mk "Query.users" (Some Api) None
    (Some (ApiInfo.mk Rest (Some "https://api/users") (Some "GET"))) [].

Lemma C6_merge_keeps_known_witness :
  exists r', nth_error (Enrichment.mergeResolvers [static_db_resolver] [api_suggestion]) 0 = Some r' /\
             ResolverInfo.path r' = "Query.users" /\
             Enrichment.classification r' = Enrichment.classification static_db_resolver /\
             ResolverInfo.sourceType r' = Database.
Proof.
  destruct (C6_merge_keeps_known [static_db_resolver] [api_suggestion] 0 static_db_resolver)
    as [r' [H1 [H2 H3]]].
  - reflexivity.
  - vm_compute. discriminate.
  - exists r'. split; [exact H1|]. split; [exact H2|]. split; [exact H3|].
    change (fst (fst (Enrichment.classification r')) = Database).
    rewrite H3. vm_compute. reflexivity.
Defined.

(** ** C7: [references] edges *)

Lemma filter_flat_map {A B : Type} (p : B -> bool) (g : A -> list B) (l : list A) :
  filter p (flat_map g l) = flat_map (fun x => filter p (g x)) l.
Proof.
  induction l as [|x l IH]; simpl; auto.
  rewrite filter_app, IH. reflexivity.
Qed.

Lemma referencesEdges_none (cs : list Connection.t) :
  Forall (fun c => Connection.type c <> References) cs -> referencesEdges cs = [].
Proof.
  induction 1 as [|c cs Hc _ IH]; simpl; auto.
  unfold referencesEdges in *; simpl.
  destruct (Connection.type c); try (exfalso; apply Hc; reflexivity); exact IH.
Qed.

Lemma resolverConnections_no_references (r : ResolverInfo.t) :
  referencesEdges (resolverConnections r) = [].
Proof.
  apply referencesEdges_none. unfold resolverConnections.
  apply Forall_app; split; [apply Forall_cons; [discriminate | apply Forall_nil]|].
  apply Forall_app; split.
  - destruct (ResolverInfo.sourceType r), (ResolverInfo.databaseInfo r), (ResolverInfo.apiInfo r);
      first [apply Forall_nil | apply Forall_cons; [discriminate | apply Forall_nil]].
  - destruct (ResolverInfo.dependencies r) as [deps|]; [|constructor].
    apply Forall_map. apply Forall_forall. intros d _. discriminate.
Qed.

(** The data-model invariant of [SchemaField.type]: no list or non-null
    syntax in it. *)
Definition noWrapperSyntax (nodes : list SchemaNode.t) : Prop :=
  forall n fs f, In n nodes -> SchemaNode.fields n = Some fs -> In f fs ->
                 JS.strip_wrappers (SchemaField.type f) = SchemaField.type f.

(** The [Post] type of the scenario: [type Post { id: ID! title: String author: User }]. *)
Definition post_type : GraphQL.NamedType :=
  GraphQL.mkType "Post" GraphQL.OBJECT None
    [GraphQL.mkField "id" (GraphQL.NON_NULL (GraphQL.NAMED "ID")) None None;
     GraphQL.mkField "title" (GraphQL.NAMED "String") None None;
     GraphQL.mkField "author" (GraphQL.NAMED "User") None None].

(** Claim C7: the [references] edges of the static synthesis are, node by
    node in input order and field by field, one edge from the node's name
    to the field's type for each field whose type is not a built-in
    scalar, and none for the others; resolvers contribute none. For the
    node built from [type Post { id: ID! title: String author: User }],
    whatever the resolvers, this is the single edge [Post -> User]. *)
Theorem C7_references_edges (nodes : list SchemaNode.t) (resolvers : list ResolverInfo.t) :
  noWrapperSyntax nodes ->
  map (fun c => (Connection.from c, Connection.to c))
      (referencesEdges (AnalysisResult.connections (analyzeConnections nodes resolvers)))
  = flat_map (fun n =>
                match SchemaNode.fields n with
                | Some fs =>
                    map (fun f => (SchemaNode.name n, SchemaField.type f))
                        (filter (fun f => negb (isScalarName (SchemaField.type f))) fs)
                | None => []
                end) nodes /\
  (forall rs, map (fun c => (Connection.from c, Connection.to c))
                  (referencesEdges (AnalysisResult.connections
                     (analyzeConnections (analyzeTypes [post_type]) rs)))
              = [("Post", "User")]).
Proof.
  intros Hwf.
  assert (Hres : forall rs, referencesEdges (flat_map resolverConnections rs) = []).
  { intros rs. induction rs as [|r rs IH]; [reflexivity|].
    change (flat_map resolverConnections (r :: rs))
      with (app (resolverConnections r) (flat_map resolverConnections rs)).
    unfold referencesEdges in *. rewrite filter_app, IH.
    fold (referencesEdges (resolverConnections r)).
    rewrite resolverConnections_no_references. reflexivity. }
  split.
  - unfold analyzeConnections; simpl. unfold referencesEdges at 1.
    rewrite filter_app. fold (referencesEdges (flat_map resolverConnections resolvers)).
    rewrite Hres. simpl.
    rewrite filter_flat_map, flat_map_concat_map, flat_map_concat_map, concat_map, map_map.
    f_equal. apply map_ext_in. intros n Hn.
    unfold nodeConnections.
    destruct (SchemaNode.fields n) as [fs|] eqn:Hfs; [|reflexivity].
    assert (Hf : forall f, In f fs ->
                 JS.strip_wrappers (SchemaField.type f) = SchemaField.type f)
      by (intros f Hf; exact (Hwf n fs f Hn Hfs Hf)).
    clear Hfs Hn. induction fs as [|f fs IH]; simpl; auto.
    destruct (isScalarName (SchemaField.type f)); simpl.
    + apply IH. intros g Hg. apply Hf. right. exact Hg.
    + rewrite (Hf f (or_introl eq_refl)). f_equal.
      apply IH. intros g Hg. apply Hf. right. exact Hg.
  - intros rs. unfold analyzeConnections; simpl. unfold referencesEdges at 1.
    rewrite filter_app. fold (referencesEdges (flat_map resolverConnections rs)).
    rewrite Hres. vm_compute. reflexivity.
Qed.

Lemma C7_references_edges_witness :
  map (fun c => (Connection.from c, Connection.to c))
      (referencesEdges (AnalysisResult.connections
         (analyzeConnections (analyzeTypes [post_type])
            [analyzeResolverImplementation "() => posts" "Query.posts"])))
  = [("Post", "User")].
Proof.
  destruct (C7_references_edges (analyzeTypes [post_type])
              [analyzeResolverImplementation "() => posts" "Query.posts"]) as [H1 _].
  - intros n fs f Hn Hfs Hf. vm_compute in Hn.
    destruct Hn as [<- | []]. vm_compute in Hfs. injection Hfs as <-.
    destruct Hf as [<- | [<- | [<- | []]]]; vm_compute; reflexivity.
  - rewrite H1. vm_compute. reflexivity.
Defined.

(** ** C8: the [fetch] scenario *)

(** Claim C8: the body [return fetch('https://x/y').then(r=>r.json())]
    is classified [api] with a REST detail whose method and endpoint are
    both undefined: no [.get(]-style call form occurs, so no literal
    follows one. *)
Theorem C8_fetch_scenario :
  ResolverInfo.sourceType (analyzeResolverImplementation fetch_text "Query.users") = Api /\
  ResolverInfo.databaseInfo (analyzeResolverImplementation fetch_text "Query.users") = None /\
  ResolverInfo.apiInfo (analyzeResolverImplementation fetch_text "Query.users")
  = Some {| ApiInfo.type := Rest; ApiInfo.method := None; ApiInfo.endpoint := None |} /\
  detectRESTMethod fetch_text = None /\
  detectRESTEndpoint fetch_text = None.
Proof. vm_compute. repeat split. Qed.

(** ** C9: query operations before a schema is loaded *)

(** Claim C9: with no schema loaded (the state is [null]), both query
    operations of the Schema Model Builder, [analyze] and
    [findTypeDependencies], fail with [NotLoaded]; and [NotLoaded] is
    the error of that state only: with a schema loaded neither operation
    fails with it ([analyze] may still fail, with the [TypeError] of a
    field type deeper than the introspection query reads). *)
Theorem C9_not_loaded :
  analyze None = Err NotLoaded /\
  findTypeDependencies None = Err NotLoaded /\
  (forall schema, analyze (Some schema) <> Err NotLoaded /\
                  findTypeDependencies (Some schema) <> Err NotLoaded).
Proof.
  split; [reflexivity|]. split; [reflexivity|].
  intros schema. unfold analyze, findTypeDependencies.
  destruct (introspectionReadable schema); split; discriminate.
Qed.

(** ** C10: the SQL keyword test also fires on HTTP client calls *)

Definition axios_delete_text : string := "return axios.delete('/x')".

(** Claim C10: [return axios.delete('/x')] contains no SQL, only an HTTP
    client call, yet its upper-cased text contains [DELETE], so the raw
    SQL test, run before the API tests, classifies it [database] with a
    [raw-sql] detail and no API detail. *)
Theorem C10_axios_delete_is_raw_sql :
  containsRESTApiPattern axios_delete_text = true /\
  containsPrismaPattern axios_delete_text = false /\
  containsMongoosePattern axios_delete_text = false /\
  containsTypeORMPattern axios_delete_text = false /\
  JS.includes (JS.toUpperCase axios_delete_text) "DELETE" = true /\
  ResolverInfo.sourceType (analyzeResolverImplementation axios_delete_text "Query.x") = Database /\
  ResolverInfo.databaseInfo (analyzeResolverImplementation axios_delete_text "Query.x")
  = Some (DatabaseInfo.mk RawSql None None) /\
  ResolverInfo.apiInfo (analyzeResolverImplementation axios_delete_text "Query.x") = None.
Proof. vm_compute. repeat split. Qed.

(* ================================================================== *)
(** * Further properties of the analysis code *)

(** ** Soundness of the regular-expression matcher *)

Module RegexFacts.
Import JS Regex.

Lemma str_app_assoc (a b c : string) : (a ++ b) ++ c = a ++ (b ++ c).
Proof. induction a; simpl; congruence. Qed.

Lemma str_app_nil_r (a : string) : a ++ "" = a.
Proof. induction a; simpl; congruence. Qed.

Lemma str_length_app (a b : string) : String.length (a ++ b) = String.length a + String.length b.
Proof. induction a; simpl; auto. Qed.

Fixpoint all_chars (c : ascii -> bool) (s : string) : bool :=
  match s with
  | EmptyString => true
  | String a s' => c a && all_chars c s'
  end.

Lemma all_chars_app (c : ascii -> bool) (a b : string) :
  all_chars c (a ++ b) = all_chars c a && all_chars c b.
Proof. induction a; simpl; auto. rewrite IHa, andb_assoc. reflexivity. Qed.

(** The strings a regular expression denotes. *)
Inductive in_lang : regex -> string -> Prop :=
| L_str p : in_lang (RStr p) p
| L_cls (c : ascii -> bool) a : c a = true -> in_lang (RCls c) (String a EmptyString)
| L_star (c : ascii -> bool) p : all_chars c p = true -> in_lang (RStar c) p
| L_cat r1 r2 p1 p2 : in_lang r1 p1 -> in_lang r2 p2 -> in_lang (RCat r1 r2) (p1 ++ p2)
| L_alt_l r1 r2 p : in_lang r1 p -> in_lang (RAlt r1 r2) p
| L_alt_r r1 r2 p : in_lang r2 p -> in_lang (RAlt r1 r2) p
| L_group n r p : in_lang r p -> in_lang (RGroup n r) p.

(** [g] is a text that group [n] of [r] can capture. *)
Fixpoint captured (r : regex) (n : nat) (g : string) : Prop :=
  match r with
  | RCat r1 r2 | RAlt r1 r2 => captured r1 n g \/ captured r2 n g
  | RGroup n' r1 => (n' = n /\ in_lang r1 g) \/ captured r1 n g
  | _ => False
  end.

Lemma strip_prefix_app (p s s' : string) : strip_prefix p s = Some s' -> s = p ++ s'.
Proof.
  revert s. induction p as [|a p IH]; intros s H; simpl in H.
  - injection H as <-. reflexivity.
  - destruct s as [|b s]; [discriminate|].
    destruct (ascii_eqb a b) eqn:E; [|discriminate].
    apply Ascii.eqb_eq in E. subst b. simpl. f_equal. apply IH. exact H.
Qed.

Lemma consumed_app (p rest : string) : consumed (p ++ rest) rest = p.
Proof.
  unfold consumed. rewrite str_length_app.
  replace (String.length p + String.length rest - String.length rest) with (String.length p) by lia.
  induction p; simpl; [destruct rest; reflexivity|]. rewrite IHp. reflexivity.
Qed.

Lemma star_cls_sound (c : ascii -> bool) (s : string) (k : string -> mresult) x :
  star_cls c s k = Some x ->
  exists p s', s = p ++ s' /\ all_chars c p = true /\ k s' = Some x.
Proof.
  induction s as [|a s IH]; simpl; intros H.
  - exists "", "". auto.
  - destruct (c a) eqn:Ca.
    + destruct (star_cls c s k) eqn:E.
      * injection H as <-. destruct (IH eq_refl) as [q [s' [-> [Hq Hk]]]].
        exists (String a q), s'. simpl. rewrite Ca, Hq. auto.
      * exists "", (String a s). auto.
    + exists "", (String a s). auto.
Qed.

(** Every successful run of the matcher consumed a prefix in the language
    of the expression, and every capture it added is one a group of the
    expression can make. *)
Lemma m_sound (r : regex) : forall s caps k x,
  m r s caps k = Some x ->
  exists p s' caps', s = p ++ s' /\ in_lang r p /\ k s' caps' = Some x /\
    (forall n g, In (n, g) caps' -> In (n, g) caps \/ captured r n g).
Proof.
  induction r as [p|c|c|r1 IH1 r2 IH2|r1 IH1 r2 IH2|n r1 IH]; intros s caps k x H; simpl in H.
  - destruct (strip_prefix p s) as [s'|] eqn:E; [|discriminate].
    exists p, s', caps. repeat split; auto using L_str, strip_prefix_app.
  - destruct s as [|a s']; [discriminate|].
    destruct (c a) eqn:Ca; [|discriminate].
    exists (String a ""), s', caps. repeat split; auto using L_cls.
  - apply star_cls_sound in H as [p [s' [-> [Hp Hk]]]].
    exists p, s', caps. repeat split; auto using L_star.
  - destruct (IH1 _ _ _ _ H) as [p1 [s1 [caps1 [-> [H1 [Hk1 Hc1]]]]]].
    destruct (IH2 _ _ _ _ Hk1) as [p2 [s2 [caps2 [-> [H2 [Hk2 Hc2]]]]]].
    exists (p1 ++ p2), s2, caps2. rewrite str_app_assoc.
    repeat split; auto using L_cat.
    intros n g Hin. simpl.
    destruct (Hc2 n g Hin) as [Hin1|]; auto.
    destruct (Hc1 n g Hin1); auto.
  - destruct (m r1 s caps k) as [y|] eqn:E1.
    + injection H as <-. destruct (IH1 _ _ _ _ E1) as [p [s' [caps' [-> [Hl [Hk Hc]]]]]].
      exists p, s', caps'. repeat split; auto using L_alt_l.
      intros n g Hin. simpl. destruct (Hc n g Hin); auto.
    + destruct (IH2 _ _ _ _ H) as [p [s' [caps' [-> [Hl [Hk Hc]]]]]].
      exists p, s', caps'. repeat split; auto using L_alt_r.
      intros n' g Hin. simpl. destruct (Hc n' g Hin); auto.
  - destruct (IH _ _ _ _ H) as [p [s' [caps1 [-> [Hl [Hk Hc]]]]]].
    rewrite consumed_app in Hk.
    exists p, s', ((n, p) :: caps1). repeat split; auto using L_group.
    intros n' g [Heq | Hin].
    + injection Heq as <- <-. simpl. auto.
    + simpl. destruct (Hc n' g Hin); auto.
Qed.

Lemma anchored_sound (r : regex) (s rest : string) (caps : captures) :
  anchored r s = Some (rest, caps) ->
  exists p, s = p ++ rest /\ in_lang r p /\ (forall n g, In (n, g) caps -> captured r n g).
Proof.
  unfold anchored. intros E.
  destruct (m_sound _ _ _ _ _ E) as [p [s' [caps' [Hs [Hl [Hk Hc]]]]]].
  simpl in Hk. injection Hk as Hr Hcp. subst s' caps'.
  exists p. repeat split; auto. intros n g Hin. destruct (Hc n g Hin) as [[]|]; auto.
Qed.

(** [text.match(re)]: the match is a substring of the text in the language
    of the expression, and so is every capture of its groups. *)
Lemma exec_sound (r : regex) (s mt rest : string) (caps : captures) :
  exec r s = Some (mt, rest, caps) ->
  exists pre, s = pre ++ mt ++ rest /\ in_lang r mt /\
    (forall n g, In (n, g) caps -> captured r n g).
Proof.
  induction s as [|a s IH]; simpl; intros H.
  - destruct (anchored r "") as [[rest' caps']|] eqn:E; [|discriminate].
    injection H as <- <- <-.
    destruct (anchored_sound _ _ _ _ E) as [p [Hs [Hl Hc]]].
    assert (Hm : consumed "" rest' = p) by (rewrite Hs; apply consumed_app).
    rewrite Hm. exists "". simpl. auto.
  - destruct (anchored r (String a s)) as [[rest' caps']|] eqn:E.
    + injection H as <- <- <-.
      destruct (anchored_sound _ _ _ _ E) as [p [Hs [Hl Hc]]].
      assert (Hm : consumed (String a s) rest' = p) by (rewrite Hs; apply consumed_app).
      rewrite Hm. exists "". simpl. auto.
    + destruct (IH H) as [pre [-> Hrest]]. exists (String a pre). auto.
Qed.

Lemma group_in (n : nat) (caps : captures) (g : string) :
  group n caps = Some g -> In (n, g) caps.
Proof.
  unfold group. destruct (find _ caps) as [[n' g']|] eqn:E; [|discriminate].
  intros Hg. injection Hg as <-.
  apply find_some in E as [Hin Hn]. simpl in Hn. apply Nat.eqb_eq in Hn. subst n'. exact Hin.
Qed.

(** [text.match(re /g)]: every match is a substring in the language. *)
Lemma match_all_fuel_sound (r : regex) (fuel : nat) (s mt : string) :
  In mt (match_all_fuel fuel r s) -> exists pre post, s = pre ++ mt ++ post /\ in_lang r mt.
Proof.
  revert s. induction fuel as [|f IH]; intros s Hin; simpl in Hin; [destruct Hin|].
  destruct (exec r s) as [[[mt' rest] caps]|] eqn:E; [|destruct Hin].
  destruct (exec_sound _ _ _ _ _ E) as [pre [Hs [Hl _]]].
  destruct (String.eqb mt' "") eqn:Em.
  - apply String.eqb_eq in Em. subst mt'.
    destruct rest as [|b rest'].
    + destruct Hin as [<- | []]. exists pre, "". auto.
    + destruct Hin as [<- | Hin].
      * exists pre, (String b rest'). auto.
      * destruct (IH rest' Hin) as [pre0 [post0 [-> H1]]].
        exists (pre ++ String b pre0), post0. split; auto.
        rewrite Hs. simpl. rewrite str_app_assoc. reflexivity.
  - destruct Hin as [<- | Hin]; [exists pre, rest; auto|].
    destruct (IH rest Hin) as [pre0 [post0 [-> H1]]].
    exists (pre ++ mt' ++ pre0), post0. split; auto.
    rewrite Hs, !str_app_assoc. reflexivity.
Qed.

Lemma match_all_sound (r : regex) (s mt : string) :
  In mt (match_all r s) -> exists pre post, s = pre ++ mt ++ post /\ in_lang r mt.
Proof. apply match_all_fuel_sound. Qed.

(** Inversion of the language of [\w+]-style expressions. *)
Lemma in_lang_plus (c : ascii -> bool) (p : string) :
  in_lang (RPlus c) p -> p <> "" /\ all_chars c p = true.
Proof.
  unfold RPlus. intros H.
  inversion H as [| | |r1 r2 p1 p2 Hc Hs| | |]; subst.
  inversion Hc as [|c1 a Ha| | | | |]; subst.
  inversion Hs as [| |c2 q Hq| | | |]; subst.
  simpl. rewrite Ha, Hq. split; [discriminate|reflexivity].
Qed.

End RegexFacts.

(** ** Extracted details: dependencies, endpoints, models *)

Import RegexFacts.

Lemma word_not_dot (a : ascii) : JS.is_word a = true -> JS.ascii_eqb a "."%char = false.
Proof.
  intros Hw. destruct (JS.ascii_eqb a "."%char) eqn:E; [|reflexivity].
  apply Ascii.eqb_eq in E. subst a. discriminate Hw.
Qed.

Lemma split_dot_acc_word (g : string) : forall cur rest,
  all_chars JS.is_word g = true ->
  JS.split_dot_acc cur (g ++ rest) = JS.split_dot_acc (cur ++ g) rest.
Proof.
  induction g as [|a g IH]; intros cur rest Hg; simpl.
  - rewrite str_app_nil_r. reflexivity.
  - simpl in Hg. apply andb_prop in Hg as [Ha Hg].
    rewrite (word_not_dot a Ha), IH by exact Hg.
    rewrite str_app_assoc. reflexivity.
Qed.

Lemma split_dot_resolvers_ref (a b : string) :
  all_chars JS.is_word a = true -> all_chars JS.is_word b = true ->
  JS.split_dot (a ++ ".resolvers." ++ b) = [a; "resolvers"; b].
Proof.
  intros Ha Hb. unfold JS.split_dot.
  rewrite split_dot_acc_word by exact Ha. simpl.
  rewrite <- (str_app_nil_r b) at 1.
  rewrite split_dot_acc_word by exact Hb. reflexivity.
Qed.

(** Every dependency [detectDependencies] reports is [a.b] for two
    non-empty identifier words [a] and [b] such that the text contains
    [a.resolvers.b]. *)
Theorem detectDependencies_sound (text d : string) :
  In d (detectDependencies text) ->
  exists a b pre post,
    d = a ++ "." ++ b /\ a <> "" /\ b <> "" /\
    all_chars JS.is_word a = true /\ all_chars JS.is_word b = true /\
    text = pre ++ (a ++ ".resolvers." ++ b) ++ post.
Proof.
  unfold detectDependencies. intros Hd.
  apply in_flat_map in Hd as [mt [Hmt Hd]].
  destruct (match_all_sound _ _ _ Hmt) as [pre [post [Htext Hl]]].
  unfold deps_re, RSeq in Hl.
  inversion Hl as [| | |r1 r2 p1 p2 H1 H2| | |]; subst.
  inversion H1 as [| | | | | |n1 r1 q1 Hw1]; subst.
  inversion H2 as [| | |r3 r4 p3 p4 H3 H4| | |]; subst.
  inversion H3; subst.
  inversion H4 as [| | | | | |n2 r2 q2 Hw2]; subst.
  destruct (in_lang_plus _ _ Hw1) as [Hne1 Hwd1].
  destruct (in_lang_plus _ _ Hw2) as [Hne2 Hwd2].
  rewrite split_dot_resolvers_ref in Hd by assumption.
  simpl in Hd. destruct Hd as [<- | []].
  exists p1, p4, pre, post. repeat split; auto.
Qed.

Lemma detectDependencies_sound_witness :
  detectDependencies "return ctx.resolvers.foo(parent)" = ["ctx.foo"] /\
  exists a b pre post,
    "ctx.foo" = a ++ "." ++ b /\ a <> "" /\ b <> "" /\
    all_chars JS.is_word a = true /\ all_chars JS.is_word b = true /\
    "return ctx.resolvers.foo(parent)" = pre ++ (a ++ ".resolvers." ++ b) ++ post.
Proof.
  split; [vm_compute; reflexivity|].
  apply detectDependencies_sound. vm_compute. left. reflexivity.
Defined.

(** The endpoint [detectRESTEndpoint] extracts is a non-empty string
    with no quote character. *)
Theorem detectRESTEndpoint_sound (text e : string) :
  detectRESTEndpoint text = Some e -> e <> "" /\ all_chars JS.not_quote e = true.
Proof.
  unfold detectRESTEndpoint.
  destruct (Regex.exec endpoint_re text) as [[[mt rest] caps]|] eqn:E; [|discriminate].
  intros Hg. apply group_in in Hg.
  destruct (exec_sound _ _ _ _ _ E) as [_ [_ [_ Hc]]].
  specialize (Hc 2 e Hg). simpl in Hc.
  repeat match goal with
         | H : _ \/ _ |- _ => destruct H
         | H : _ /\ _ |- _ => destruct H
         | H : False |- _ => destruct H
         | H : 1 = 2 |- _ => discriminate H
         end.
  apply in_lang_plus. assumption.
Qed.

Lemma detectRESTEndpoint_sound_witness :
  detectRESTEndpoint "return axios.get( 'https://api/users' )" = Some "https://api/users" /\
  "https://api/users" <> "" /\ all_chars JS.not_quote "https://api/users" = true.
Proof.
  split; [vm_compute; reflexivity|].
  apply (detectRESTEndpoint_sound "return axios.get( 'https://api/users' )").
  vm_compute. reflexivity.
Defined.

(** The model name [detectPrismaModel] extracts is a non-empty identifier
    word (so the [DB:<model>] target is never [DB:]). *)
Theorem detectPrismaModel_sound (text mdl : string) :
  detectPrismaModel text = Some mdl -> mdl <> "" /\ all_chars JS.is_word mdl = true.
Proof.
  unfold detectPrismaModel.
  destruct (Regex.exec prisma_model_re text) as [[[mt rest] caps]|] eqn:E; [|discriminate].
  intros Hg. apply group_in in Hg.
  destruct (exec_sound _ _ _ _ _ E) as [_ [_ [_ Hc]]].
  specialize (Hc 1 mdl Hg). simpl in Hc.
  repeat match goal with
         | H : _ \/ _ |- _ => destruct H
         | H : _ /\ _ |- _ => destruct H
         | H : False |- _ => destruct H
         end.
  apply in_lang_plus. assumption.
Qed.

Lemma detectPrismaModel_sound_witness :
  detectPrismaModel "return prisma.user.findMany()" = Some "user" /\
  "user" <> "" /\ all_chars JS.is_word "user" = true.
Proof.
  split; [vm_compute; reflexivity|].
  apply (detectPrismaModel_sound "return prisma.user.findMany()").
  vm_compute. reflexivity.
Defined.

(** ** The static connection graph *)

Definition callsEdges (cs : list Connection.t) : list Connection.t :=
  filter (fun c => match Connection.type c with Calls => true | _ => false end) cs.

Lemma Forall_flat_map {A B : Type} (P : B -> Prop) (g : A -> list B) (l : list A) :
  (forall x, In x l -> Forall P (g x)) -> Forall P (flat_map g l).
Proof.
  induction l as [|x l IH]; simpl; intros H; [constructor|].
  apply Forall_app. split; auto.
Qed.

Definition staticEdgeType (c : Connection.t) : Prop :=
  Connection.type c = Resolves \/ Connection.type c = Calls \/ Connection.type c = References.

Lemma resolverConnections_types (r : ResolverInfo.t) :
  Forall staticEdgeType (resolverConnections r).
Proof.
  unfold resolverConnections, staticEdgeType.
  apply Forall_app; split; [repeat constructor; auto|].
  apply Forall_app; split.
  - destruct (ResolverInfo.sourceType r), (ResolverInfo.databaseInfo r), (ResolverInfo.apiInfo r);
      first [apply Forall_nil | apply Forall_cons; [simpl; auto | apply Forall_nil]].
  - destruct (ResolverInfo.dependencies r) as [deps|]; [|constructor].
    apply Forall_map. apply Forall_forall. intros d _. simpl. auto.
Qed.

Lemma nodeConnections_types (n : SchemaNode.t) :
  Forall staticEdgeType (nodeConnections n).
Proof.
  unfold nodeConnections, staticEdgeType.
  destruct (SchemaNode.fields n) as [fs|]; [|constructor].
  apply Forall_flat_map. intros f _.
  destruct (negb _); constructor; simpl; auto.
Qed.

(** The static synthesis only produces [resolves], [calls] and
    [references] edges, never [extends] or [implements]. *)
Theorem analyzeConnections_edge_types (schemaNodes : list SchemaNode.t)
        (resolverInfos : list ResolverInfo.t) :
  Forall staticEdgeType (AnalysisResult.connections (analyzeConnections schemaNodes resolverInfos)).
Proof.
  simpl. apply Forall_app. split; apply Forall_flat_map; intros x _.
  - apply resolverConnections_types.
  - apply nodeConnections_types.
Qed.

Lemma resolvesEdges_none (cs : list Connection.t) :
  Forall (fun c => Connection.type c <> Resolves) cs -> resolvesEdges cs = [].
Proof.
  induction 1 as [|c cs Hc _ IH]; simpl; auto.
  unfold resolvesEdges in *; simpl.
  destruct (Connection.type c); try (exfalso; apply Hc; reflexivity); exact IH.
Qed.

Lemma resolvesEdges_app (a b : list Connection.t) :
  resolvesEdges (app a b) = app (resolvesEdges a) (resolvesEdges b).
Proof. apply filter_app. Qed.

Lemma resolvesEdges_resolver (r : ResolverInfo.t) :
  resolvesEdges (resolverConnections r)
  = [edge (ResolverInfo.typeName r ++ "." ++ ResolverInfo.fieldName r) (ResolverInfo.typeName r)
          Resolves ("Resolver for " ++ ResolverInfo.typeName r ++ "." ++ ResolverInfo.fieldName r)].
Proof.
  unfold resolverConnections. rewrite resolvesEdges_app.
  rewrite (resolvesEdges_none (app _ _)); [reflexivity|].
  apply Forall_app; split.
  - destruct (ResolverInfo.sourceType r), (ResolverInfo.databaseInfo r), (ResolverInfo.apiInfo r);
      first [apply Forall_nil | apply Forall_cons; [discriminate | apply Forall_nil]].
  - destruct (ResolverInfo.dependencies r) as [deps|]; [|constructor].
    apply Forall_map. apply Forall_forall. intros d _. discriminate.
Qed.

(** The [resolves] edges of the static synthesis are exactly one per
    resolver, in input order, from [typeName.fieldName] to [typeName];
    schema nodes contribute none. *)
Theorem analyzeConnections_resolves (schemaNodes : list SchemaNode.t)
        (resolverInfos : list ResolverInfo.t) :
  map (fun c => (Connection.from c, Connection.to c))
      (resolvesEdges (AnalysisResult.connections (analyzeConnections schemaNodes resolverInfos)))
  = map (fun r => (ResolverInfo.typeName r ++ "." ++ ResolverInfo.fieldName r,
                   ResolverInfo.typeName r)) resolverInfos.
Proof.
  simpl. rewrite resolvesEdges_app.
  rewrite (resolvesEdges_none (flat_map nodeConnections schemaNodes)).
  - rewrite app_nil_r. induction resolverInfos as [|r rs IH]; [reflexivity|].
    change (flat_map resolverConnections (r :: rs))
      with (app (resolverConnections r) (flat_map resolverConnections rs)).
    rewrite resolvesEdges_app, resolvesEdges_resolver. simpl. f_equal. exact IH.
  - apply Forall_flat_map. intros n _. unfold nodeConnections.
    destruct (SchemaNode.fields n) as [fs|]; [|constructor].
    apply Forall_flat_map. intros f _.
    destruct (negb _); constructor; [discriminate | constructor].
Qed.

Definition wrapperChar (c : ascii) : bool :=
  JS.ascii_eqb c "["%char || JS.ascii_eqb c "]"%char || JS.ascii_eqb c "!"%char.

Lemma strip_wrappers_clean (s : string) :
  all_chars (fun c => negb (wrapperChar c)) (JS.strip_wrappers s) = true.
Proof.
  induction s as [|a s IH]; simpl; auto.
  unfold wrapperChar in *.
  destruct (JS.ascii_eqb a "["%char || JS.ascii_eqb a "]"%char || JS.ascii_eqb a "!"%char) eqn:E;
    simpl; [exact IH|]. rewrite E. exact IH.
Qed.

(** Whatever the field types of the schema nodes, no [references] edge
    targets a name containing [[], []] or [!]. *)
Theorem analyzeConnections_references_clean (schemaNodes : list SchemaNode.t)
        (resolverInfos : list ResolverInfo.t) (c : Connection.t) :
  In c (referencesEdges (AnalysisResult.connections (analyzeConnections schemaNodes resolverInfos))) ->
  all_chars (fun ch => negb (wrapperChar ch)) (Connection.to c) = true.
Proof.
  unfold referencesEdges. intros H. apply filter_In in H as [H Hty].
  simpl in H. apply in_app_or in H as [H | H].
  - apply in_flat_map in H as [r [_ Hr]].
    pose proof (resolverConnections_types r) as Hall.
    rewrite Forall_forall in Hall. specialize (Hall c Hr).
    assert (Hnr : referencesEdges (resolverConnections r) = []) by apply resolverConnections_no_references.
    assert (Hin : In c (referencesEdges (resolverConnections r))) by (apply filter_In; auto).
    rewrite Hnr in Hin. destruct Hin.
  - apply in_flat_map in H as [n [_ Hn]]. unfold nodeConnections in Hn.
    destruct (SchemaNode.fields n) as [fs|]; [|destruct Hn].
    apply in_flat_map in Hn as [f [_ Hf]].
    destruct (negb _); [|destruct Hf].
    destruct Hf as [<- | []]. apply strip_wrappers_clean.
Qed.

Lemma analyzeConnections_references_clean_witness :
  all_chars (fun ch => negb (wrapperChar ch)) "User" = true.
Proof.
  apply (analyzeConnections_references_clean
           [SchemaNode.mk Type_ "Post" (Some [SchemaField.mk "authors" "[User!]" false true None]) None]
           [] (edge "Post" "User" References "Post references [User!] via authors field")).
  vm_compute. left. reflexivity.
Defined.

Lemma callsEdges_app (a b : list Connection.t) :
  callsEdges (app a b) = app (callsEdges a) (callsEdges b).
Proof. apply filter_app. Qed.

Lemma callsEdges_deps (from : string) (deps : list string) :
  map Connection.to (callsEdges (map (fun d => edge from d Calls ("Depends on " ++ d)) deps)) = deps.
Proof. induction deps as [|d deps IH]; simpl; auto. f_equal. exact IH. Qed.

(** For a resolver built by the file-based classifier, the targets of
    its [calls] edges are, in order: for a [database] resolver one edge to
    [DB:<model>], where the model is the detected Prisma model (or
    [unknown]) for Prisma code and always [unknown] for the other database
    kinds; for an [api] resolver one edge to [API:<endpoint>], where the
    endpoint is the detected REST endpoint (or the type name [rest]) for
    REST code and [graphql] for GraphQL-client code; nothing for the other
    kinds; then each detected dependency, verbatim and in order. *)
Theorem classified_resolver_calls (text resolverPath : string) :
  let r := analyzeResolverImplementation text resolverPath in
  map Connection.to (callsEdges (resolverConnections r)) =
    app (match ResolverInfo.sourceType r with
         | Database =>
             ["DB:" ++ (if containsPrismaPattern text
                        then JS.or_default (detectPrismaModel text) "unknown" else "unknown")]
         | Api =>
             ["API:" ++ (if containsRESTApiPattern text
                         then JS.or_default (detectRESTEndpoint text) "rest" else "graphql")]
         | _ => []
         end)
        (detectDependencies text).
Proof.
  intros r. unfold r, analyzeResolverImplementation.
  repeat match goal with |- context [if ?b then _ else _] => destruct b eqn:? end;
    unfold resolverConnections; rewrite !callsEdges_app, !map_app;
    cbn [ResolverInfo.sourceType ResolverInfo.databaseInfo ResolverInfo.apiInfo
         ResolverInfo.dependencies ResolverInfo.typeName ResolverInfo.fieldName
         DatabaseInfo.model ApiInfo.endpoint ApiInfo.type ApiType_to_string];
    rewrite callsEdges_deps; reflexivity.
Qed.

(** ** The file-based classifier *)

Definition notDot (c : ascii) : bool := negb (JS.ascii_eqb c "."%char).

Lemma split_dot_acc_not_nil (cur s : string) : JS.split_dot_acc cur s <> [].
Proof.
  revert cur. induction s as [|a s IH]; intros cur; simpl; [discriminate|].
  destruct (JS.ascii_eqb a "."%char); [discriminate | apply IH].
Qed.

Lemma pop_cons (x : string) (l : list string) : l <> [] -> JS.pop (x :: l) = JS.pop l.
Proof. destruct l; [contradiction | reflexivity]. Qed.

Lemma split_dot_acc_dotfree (b : string) : forall cur,
  all_chars notDot b = true -> JS.split_dot_acc cur b = [cur ++ b].
Proof.
  induction b as [|a b IH]; intros cur Hb; simpl.
  - rewrite str_app_nil_r. reflexivity.
  - simpl in Hb. apply andb_prop in Hb as [Ha Hb]. unfold notDot in Ha.
    apply negb_true_iff in Ha. rewrite Ha, IH by exact Hb.
    rewrite str_app_assoc. reflexivity.
Qed.

Lemma pop_split_last (a b : string) : forall cur,
  all_chars notDot b = true ->
  JS.pop (JS.split_dot_acc cur (a ++ "." ++ b)) = Some b.
Proof.
  induction a as [|c a IH]; intros cur Hb; cbn -[JS.pop].
  - rewrite pop_cons by apply split_dot_acc_not_nil.
    rewrite split_dot_acc_dotfree by exact Hb. reflexivity.
  - destruct (JS.ascii_eqb c "."%char).
    + rewrite pop_cons by apply split_dot_acc_not_nil. apply IH. exact Hb.
    + apply IH. exact Hb.
Qed.

Lemma last_segment_names (text a b : string) :
  b <> "" -> all_chars notDot b = true ->
  ResolverInfo.typeName (analyzeResolverImplementation text (a ++ "." ++ b)) = b /\
  ResolverInfo.fieldName (analyzeResolverImplementation text (a ++ "." ++ b)) = b /\
  ResolverInfo.path (analyzeResolverImplementation text (a ++ "." ++ b)) = a ++ "." ++ b.
Proof.
  intros Hne Hb.
  assert (Hn : JS.or_default (JS.pop (JS.split_dot (a ++ "." ++ b))) "unknown" = b).
  { unfold JS.split_dot. rewrite pop_split_last by exact Hb. simpl.
    destruct (String.eqb b "") eqn:E; [apply String.eqb_eq in E; contradiction | reflexivity]. }
  unfold analyzeResolverImplementation. cbv zeta. rewrite Hn.
  repeat match goal with |- context [if ?c then _ else _] => destruct c end;
    simpl; auto.
Qed.

(** The file-based classifier names a resolver with path [a.b] (where
    [b], the text after the last dot, is not empty) with [typeName = b]
    and [fieldName = b]: both are the last segment of the path. *)
Theorem analyzeResolverImplementation_names (text a b : string) :
  b <> "" -> all_chars notDot b = true ->
  ResolverInfo.typeName (analyzeResolverImplementation text (a ++ "." ++ b)) = b /\
  ResolverInfo.fieldName (analyzeResolverImplementation text (a ++ "." ++ b)) = b /\
  ResolverInfo.path (analyzeResolverImplementation text (a ++ "." ++ b)) = a ++ "." ++ b.
Proof. exact (last_segment_names text a b). Qed.

Lemma analyzeResolverImplementation_names_witness :
  ResolverInfo.typeName (analyzeResolverImplementation "() => 1" ("Query" ++ "." ++ "users")) = "users".
Proof.
  apply (analyzeResolverImplementation_names "() => 1" "Query" "users");
    [discriminate | reflexivity].
Defined.

Lemma path_code (text q : string) :
  ResolverInfo.path (analyzeResolverImplementation text q) = q /\
  ResolverInfo.code (analyzeResolverImplementation text q) = text.
Proof.
  unfold analyzeResolverImplementation.
  repeat match goal with |- context [if ?c then _ else _] => destruct c end; simpl; auto.
Qed.

(** Every resolver found in an object literal comes from an entry
    [key: value] of the literal whose key is an identifier and whose value
    is a function expression, an arrow function or an identifier; the
    literal is the value of an identifier-keyed property, or is bound to a
    variable whose lower-cased name contains [resolver]; the resolver is
    the classifier's result on the value's text with path
    [<binding name>.<key>]. As the classifier names a resolver after the
    last segment of its path, a non-empty dot-free key becomes both its
    [typeName] and its [fieldName]: the binding name (the GraphQL type of a
    resolver map such as [Query: { users }]) is kept in the path only. *)
Theorem analyzeObjectLiteral_entries (parent : LiteralParent) (properties : list Property)
    (r : ResolverInfo.t) :
  In r (analyzeObjectLiteral parent properties) ->
  exists tn key kind text,
    (parent = PropertyAssignmentParent (Identifier tn) \/
     (parent = VariableDeclarationParent (Identifier tn) /\
      JS.includes (JS.toLowerCase tn) "resolver" = true)) /\
    In (PropertyAssignment (Identifier key) kind text) properties /\ kind <> OtherExpression /\
    r = analyzeResolverImplementation text (tn ++ "." ++ key) /\
    ResolverInfo.code r = text /\ ResolverInfo.path r = tn ++ "." ++ key /\
    (key <> "" -> all_chars notDot key = true ->
       ResolverInfo.typeName r = key /\ ResolverInfo.fieldName r = key).
Proof.
  assert (Hentry : forall tn, In r (flat_map (fun p =>
                   match p with
                   | PropertyAssignment (Identifier fieldName) k text =>
                       match k with
                       | FunctionExpression | ArrowFunction | IdentifierRef =>
                           [analyzeResolverImplementation text (tn ++ "." ++ fieldName)]
                       | OtherExpression => []
                       end
                   | _ => []
                   end) properties) ->
    exists key kind text,
      In (PropertyAssignment (Identifier key) kind text) properties /\ kind <> OtherExpression /\
      r = analyzeResolverImplementation text (tn ++ "." ++ key)).
  { intros tn Hin. apply in_flat_map in Hin as [p [Hp Hin]].
    destruct p as [[key|] k text|]; try destruct Hin.
    exists key, k, text. split; [exact Hp|].
    destruct k; (destruct Hin as [<- | []] || destruct Hin);
      split; solve [discriminate | reflexivity]. }
  intros Hin. unfold analyzeObjectLiteral in Hin.
  assert (Hp : exists tn, (parent = PropertyAssignmentParent (Identifier tn) \/
               (parent = VariableDeclarationParent (Identifier tn) /\
                JS.includes (JS.toLowerCase tn) "resolver" = true)) /\
             exists key kind text,
               In (PropertyAssignment (Identifier key) kind text) properties /\
               kind <> OtherExpression /\
               r = analyzeResolverImplementation text (tn ++ "." ++ key)).
  { destruct parent as [[tn|] | [tn|] |]; cbv iota beta in Hin; try destruct Hin.
    - exists tn. split; [left; reflexivity | exact (Hentry tn Hin)].
    - destruct (JS.includes (JS.toLowerCase tn) "resolver") eqn:Ei; [|destruct Hin].
      exists tn. split; [right; split; [reflexivity | exact Ei] | exact (Hentry tn Hin)]. }
  destruct Hp as [tn [Hpar [key [kind [text [Hk [Hkind ->]]]]]]].
  exists tn, key, kind, text.
  destruct (path_code text (tn ++ "." ++ key)) as [Hpath Hcode].
  repeat (split; [assumption || reflexivity |]).
  intros Hne Hd. destruct (last_segment_names text tn key Hne Hd) as [Ht [Hf _]].
  split; assumption.
Qed.

Lemma analyzeObjectLiteral_entries_witness :
  exists tn key kind text,
    (PropertyAssignmentParent (Identifier "Query") = PropertyAssignmentParent (Identifier tn) \/
     (PropertyAssignmentParent (Identifier "Query") = VariableDeclarationParent (Identifier tn) /\
      JS.includes (JS.toLowerCase tn) "resolver" = true)) /\
    In (PropertyAssignment (Identifier key) kind text)
       [PropertyAssignment (Identifier "users") ArrowFunction "() => db.users()"] /\
    kind <> OtherExpression /\
    analyzeResolverImplementation "() => db.users()" "Query.users" =
      analyzeResolverImplementation text (tn ++ "." ++ key) /\
    ResolverInfo.code (analyzeResolverImplementation "() => db.users()" "Query.users") = text /\
    ResolverInfo.path (analyzeResolverImplementation "() => db.users()" "Query.users") =
      tn ++ "." ++ key /\
    (key <> "" -> all_chars notDot key = true ->
       ResolverInfo.typeName (analyzeResolverImplementation "() => db.users()" "Query.users") = key /\
       ResolverInfo.fieldName (analyzeResolverImplementation "() => db.users()" "Query.users") = key).
Proof.
  apply (analyzeObjectLiteral_entries (PropertyAssignmentParent (Identifier "Query"))
           [PropertyAssignment (Identifier "users") ArrowFunction "() => db.users()"]
           (analyzeResolverImplementation "() => db.users()" "Query.users")).
  simpl. left. reflexivity.
Defined.

(** ** The schema analyzer *)

Lemma list_includes_In (xs : list string) (x : string) :
  JS.list_includes xs x = true <-> In x xs.
Proof.
  unfold JS.list_includes. rewrite existsb_exists. split.
  - intros [y [Hy Heq]]. apply String.eqb_eq in Heq. subst. exact Hy.
  - intros H. exists x. split; [exact H | apply String.eqb_refl].
Qed.

(** The unwrapping loop always ends on the named type at the core of the
    field's type, whatever wrappers surround it. *)
Theorem unwrap_named (t : GraphQL.TypeRef) :
  unwrap t = GraphQL.NAMED (getTypeName t).
Proof.
  induction t as [t IH | t IH | n]; simpl.
  - rewrite IH. destruct (JS.includes (GraphQL.toString t ++ "!") "[");
      simpl; [reflexivity|].
    assert (Hb : JS.includes (GraphQL.toString t ++ "!") "!" = true).
    { generalize (GraphQL.toString t). induction s as [|c s IHs]; [reflexivity|].
      simpl. rewrite IHs. apply orb_true_r. }
    rewrite Hb. reflexivity.
  - rewrite IH. replace (String.prefix "" (GraphQL.toString t ++ "]")) with true
      by (destruct (GraphQL.toString t ++ "]"); reflexivity). reflexivity.
  - destruct (JS.includes n "[" || JS.includes n "!"); reflexivity.
Qed.

Definition depStep (deps : list string) (field : GraphQL.Field) : list string :=
  let s := GraphQL.toString (unwrap (GraphQL.f_type field)) in
  if negb (String.eqb s EmptyString) && negb (JS.list_includes scalars s) then
    if negb (JS.list_includes deps s) then app deps [s] else deps
  else deps.

Definition isDependency (fields : list GraphQL.Field) (s : string) : Prop :=
  s <> "" /\ ~ In s scalars /\
  exists f, In f fields /\ getTypeName (GraphQL.f_type f) = s.

Lemma depStep_fold (fields : list GraphQL.Field) : forall acc,
  NoDup acc ->
  NoDup (fold_left depStep fields acc) /\
  forall s, In s (fold_left depStep fields acc) <-> In s acc \/ isDependency fields s.
Proof.
  unfold isDependency.
  induction fields as [|f fs IH]; intros acc Hnd; simpl.
  - split; [exact Hnd|]. intros s. split; [left; exact H|].
    intros [H | [_ [_ [f [[] _]]]]]. exact H.
  - assert (Hstep : NoDup (depStep acc f) /\
            forall s, In s (depStep acc f) <-> In s acc \/
              (s <> "" /\ ~ In s scalars /\ getTypeName (GraphQL.f_type f) = s)).
    { unfold depStep. rewrite unwrap_named. cbn [GraphQL.toString].
      set (n := getTypeName (GraphQL.f_type f)).
      destruct (String.eqb n "") eqn:En; cbn [negb andb].
      - apply String.eqb_eq in En. split; [exact Hnd|]. intros s.
        split; [left; exact H|]. intros [H | [Hne [_ Heq]]]; [exact H|].
        subst. contradiction.
      - destruct (JS.list_includes scalars n) eqn:Es; cbn [negb andb].
        + apply list_includes_In in Es. split; [exact Hnd|]. intros s.
          split; [left; exact H|]. intros [H | [_ [Hs Heq]]]; [exact H|].
          subst. contradiction.
        + assert (Hns : ~ In n scalars).
          { intros Hin. apply list_includes_In in Hin. congruence. }
          assert (Hnn : n <> "").
          { intros E. rewrite E in En. discriminate. }
          destruct (JS.list_includes acc n) eqn:Ea; cbn [negb].
          * apply list_includes_In in Ea. split; [exact Hnd|]. intros s.
            split; [left; exact H|]. intros [H | [_ [_ Heq]]]; [exact H|].
            subst. exact Ea.
          * assert (Hna : ~ In n acc).
            { intros Hin. apply list_includes_In in Hin. congruence. }
            split.
            -- apply NoDup_app; [exact Hnd | constructor; [intros [] | constructor] |].
               intros x Hx [Hy | []]. subst. contradiction.
            -- intros s. rewrite in_app_iff. simpl. split.
               ++ intros [H | [H | []]]; [left; exact H | right; subst; auto].
               ++ intros [H | [_ [_ Heq]]]; [left; exact H | right; left; exact Heq]. }
    destruct Hstep as [Hnd' Hin'].
    destruct (IH (depStep acc f) Hnd') as [Hnd'' Hin''].
    split; [exact Hnd''|]. intros s. rewrite Hin'', Hin'. split.
    + intros [[H | [Hne [Hs Heq]]] | [Hne [Hs [g [Hg Heq]]]]].
      * left. exact H.
      * right. repeat split; auto. exists f. auto.
      * right. repeat split; auto. exists g. auto.
    + intros [H | [Hne [Hs [g [[Hg | Hg] Heq]]]]].
      * left. left. exact H.
      * left. right. subst g. auto.
      * right. repeat split; auto. exists g. auto.
Qed.

(** The list [typeDependencies] computes for one type: duplicate-free,
    holding exactly the dependency names of its fields when it has fields,
    empty otherwise. *)
Lemma typeDependencies_spec (t : GraphQL.NamedType) :
  NoDup (typeDependencies t) /\
  forall s, In s (typeDependencies t) <->
    hasGetFields (GraphQL.t_kind t) = true /\ isDependency (GraphQL.t_fields t) s.
Proof.
  unfold typeDependencies. destruct (hasGetFields (GraphQL.t_kind t)).
  - destruct (depStep_fold (GraphQL.t_fields t) [] (NoDup_nil _)) as [Hnd Hiff].
    split; [exact Hnd|]. intros s. rewrite Hiff. split.
    + intros [[] | H]. split; [reflexivity | exact H].
    + intros [_ H]. right. exact H.
  - split; [constructor|]. intros s. split; [intros []|]. intros [H _]. discriminate.
Qed.

(** [findTypeDependencies] on a loaded schema has an entry for every
    non-introspection type of the schema, under the type's own name, and
    no other entries; the list of a type is duplicate-free and holds
    exactly the core type names (wrappers stripped) of its fields that are
    neither empty nor one of the five built-in scalars, when the type has
    fields ([OBJECT], [INTERFACE], [INPUT_OBJECT]); it is empty
    otherwise. *)
Theorem findTypeDependencies_lists (schema : GraphQL.Schema)
    (deps : list (string * list string)) :
  findTypeDependencies (Some schema) = Ok deps ->
  (forall t, In t schema -> JS.startsWith (GraphQL.t_name t) "__" = false ->
     exists ds, In (GraphQL.t_name t, ds) deps /\ NoDup ds /\
       forall s, In s ds <->
         hasGetFields (GraphQL.t_kind t) = true /\ isDependency (GraphQL.t_fields t) s) /\
  (forall n ds, In (n, ds) deps ->
     exists t, In t schema /\ GraphQL.t_name t = n /\ JS.startsWith n "__" = false /\
       NoDup ds /\
       forall s, In s ds <->
         hasGetFields (GraphQL.t_kind t) = true /\ isDependency (GraphQL.t_fields t) s).
Proof.
  intros Hf. unfold findTypeDependencies in Hf. injection Hf as <-. split.
  - intros t Ht Hn. exists (typeDependencies t). split; [|exact (typeDependencies_spec t)].
    apply in_map_iff. exists t. split; [reflexivity|].
    apply filter_In. split; [exact Ht|]. rewrite Hn. reflexivity.
  - intros n ds Hin.
    apply in_map_iff in Hin as [t [Ht Hin]]. injection Ht as <- <-.
    apply filter_In in Hin as [Hin Hnot]. apply negb_true_iff in Hnot.
    exists t. split; [exact Hin|]. split; [reflexivity|]. split; [exact Hnot|].
    exact (typeDependencies_spec t).
Qed.

Definition blog_types : GraphQL.Schema :=
  [GraphQL.mkType "Post" GraphQL.OBJECT None
     [GraphQL.mkField "id" (GraphQL.NON_NULL (GraphQL.NAMED "ID")) None None;
      GraphQL.mkField "author" (GraphQL.NON_NULL (GraphQL.NAMED "User")) None None;
      GraphQL.mkField "related" (GraphQL.LIST (GraphQL.NON_NULL (GraphQL.NAMED "Post"))) None None;
      GraphQL.mkField "editor" (GraphQL.NAMED "User") None None];
   GraphQL.mkType "User" GraphQL.OBJECT None [];
   GraphQL.mkType "__Schema" GraphQL.OBJECT None []].

Lemma findTypeDependencies_lists_witness :
  exists deps, findTypeDependencies (Some blog_types) = Ok deps /\
  (forall t, In t blog_types -> JS.startsWith (GraphQL.t_name t) "__" = false ->
     exists ds, In (GraphQL.t_name t, ds) deps /\ NoDup ds /\
       forall s, In s ds <->
         hasGetFields (GraphQL.t_kind t) = true /\ isDependency (GraphQL.t_fields t) s) /\
  (forall n ds, In (n, ds) deps ->
     exists t, In t blog_types /\ GraphQL.t_name t = n /\ JS.startsWith n "__" = false /\
       NoDup ds /\
       forall s, In s ds <->
         hasGetFields (GraphQL.t_kind t) = true /\ isDependency (GraphQL.t_fields t) s).
Proof.
  eexists. split; [reflexivity|].
  apply (findTypeDependencies_lists blog_types). reflexivity.
Defined.











(** ** Resolvers found through the schema *)

(** Every resolver the schema-based path reports belongs to a field with a
    resolve function of a non-introspection [OBJECT] type of the schema:
    its names and path are the type's and the field's, its code is the
    resolve function, it never has API information or dependencies, and it
    is a Prisma database resolver when that code matches the Prisma
    pattern and [unknown] otherwise. *)
Theorem analyzeResolversFromSchema_sound (schema : GraphQL.Schema) (r : ResolverInfo.t) :
  In r (analyzeResolversFromSchema schema) ->
  exists t f, In t schema /\ JS.startsWith (GraphQL.t_name t) "__" = false /\
    GraphQL.t_kind t = GraphQL.OBJECT /\ In f (GraphQL.t_fields t) /\
    GraphQL.f_resolve f = Some (ResolverInfo.code r) /\
    ResolverInfo.typeName r = GraphQL.t_name t /\
    ResolverInfo.fieldName r = GraphQL.f_name f /\
    ResolverInfo.path r = GraphQL.t_name t ++ "." ++ GraphQL.f_name f /\
    ResolverInfo.apiInfo r = None /\ ResolverInfo.dependencies r = None /\
    ResolverInfo.sourceType r =
      (if containsPrismaPattern (ResolverInfo.code r) then Database else Unknown).
Proof.
  unfold analyzeResolversFromSchema. intros Hin.
  apply in_flat_map in Hin as [t [Ht Hin]].
  destruct (JS.startsWith (GraphQL.t_name t) "__") eqn:Es; [destruct Hin|].
  destruct (GraphQL.t_kind t) eqn:Ek; try destruct Hin.
  apply in_flat_map in Hin as [f [Hf Hin]].
  destruct (GraphQL.f_resolve f) as [code|] eqn:Er; [|destruct Hin].
  destruct Hin as [<- | []].
  exists t, f. unfold analyzeResolverFunction.
  destruct (containsPrismaPattern code) eqn:Ec;
    cbv [ResolverInfo.code ResolverInfo.sourceType ResolverInfo.typeName ResolverInfo.fieldName
         ResolverInfo.path ResolverInfo.apiInfo ResolverInfo.dependencies];
    rewrite ?Ec; repeat split; auto.
Qed.

Definition user_resolvers : GraphQL.Schema :=
  [GraphQL.mkType "Query" GraphQL.OBJECT None
     [GraphQL.mkField "users" (GraphQL.NAMED "User") None
        (Some "() => prisma.user.findMany()")]].

Definition users_resolver : ResolverInfo.t :=
  analyzeResolverFunction
    {| ResolverInfo.typeName := "Query";
       ResolverInfo.fieldName := "users";
       ResolverInfo.path := "Query.users";
       ResolverInfo.code := "() => prisma.user.findMany()";
       ResolverInfo.sourceType := Unknown;
       ResolverInfo.databaseInfo := None;
       ResolverInfo.apiInfo := None;
       ResolverInfo.dependencies := None |}.

Lemma analyzeResolversFromSchema_sound_witness :
  In users_resolver (analyzeResolversFromSchema user_resolvers) /\
  exists t f, In t user_resolvers /\ JS.startsWith (GraphQL.t_name t) "__" = false /\
    GraphQL.t_kind t = GraphQL.OBJECT /\ In f (GraphQL.t_fields t) /\
    GraphQL.f_resolve f = Some (ResolverInfo.code users_resolver) /\
    ResolverInfo.typeName users_resolver = GraphQL.t_name t /\
    ResolverInfo.fieldName users_resolver = GraphQL.f_name f /\
    ResolverInfo.path users_resolver = GraphQL.t_name t ++ "." ++ GraphQL.f_name f /\
    ResolverInfo.apiInfo users_resolver = None /\ ResolverInfo.dependencies users_resolver = None /\
    ResolverInfo.sourceType users_resolver =
      (if containsPrismaPattern (ResolverInfo.code users_resolver) then Database else Unknown).
Proof.
  split; [vm_compute; left; reflexivity|].
  apply (analyzeResolversFromSchema_sound user_resolvers users_resolver).
  vm_compute. left. reflexivity.
Defined.

(** ** The graph nodes of the visualizer *)

Import Visualizer.

Definition isGroup (g : Group) (n : VisNode.t) : bool :=
  match g, VisNode.group n with
  | SchemaGroup, SchemaGroup | ResolverGroup, ResolverGroup
  | DataSourceGroup, DataSourceGroup => true
  | _, _ => false
  end.

Lemma addResolver_shape (groupBySource : bool) (nodes : list VisNode.t) (r : ResolverInfo.t) :
  exists extra,
    addResolver groupBySource nodes r =
      app nodes (VisNode.mk (ResolverInfo.path r) (nth_error (JS.split_dot (ResolverInfo.path r)) 1)
                            ResolverGroup :: extra) /\
    Forall (fun n => VisNode.group n = DataSourceGroup) extra.
Proof.
  unfold addResolver. cbv zeta.
  destruct (groupBySource && _); [|exists []; split; [reflexivity | constructor]].
  destruct (sourceNode r) as [sid slabel].
  destruct (negb (String.eqb sid "") && _).
  - exists [VisNode.mk sid (Some slabel) DataSourceGroup].
    rewrite <- app_assoc. split; [reflexivity | repeat constructor].
  - exists []. split; [reflexivity | constructor].
Qed.

Lemma filter_extra (g : Group) (extra : list VisNode.t) :
  g <> DataSourceGroup -> Forall (fun n => VisNode.group n = DataSourceGroup) extra ->
  filter (isGroup g) extra = [].
Proof.
  intros Hg Hx. induction Hx as [|n ns Hn _ IH]; [reflexivity|].
  simpl. unfold isGroup at 1. rewrite Hn. destruct g; [| |contradiction]; exact IH.
Qed.

Lemma fold_addResolver_groups (groupBySource : bool) (rs : list ResolverInfo.t) :
  forall nodes,
    map VisNode.id (filter (isGroup SchemaGroup) (fold_left (addResolver groupBySource) rs nodes))
      = map VisNode.id (filter (isGroup SchemaGroup) nodes) /\
    map VisNode.id (filter (isGroup ResolverGroup) (fold_left (addResolver groupBySource) rs nodes))
      = app (map VisNode.id (filter (isGroup ResolverGroup) nodes)) (map ResolverInfo.path rs).
Proof.
  induction rs as [|r rs IH]; intros nodes; simpl.
  - rewrite app_nil_r. split; reflexivity.
  - destruct (IH (addResolver groupBySource nodes r)) as [H1 H2].
    rewrite H1, H2.
    destruct (addResolver_shape groupBySource nodes r) as [extra [-> Hx]].
    rewrite !filter_app. simpl.
    rewrite (filter_extra SchemaGroup extra ltac:(discriminate) Hx),
            (filter_extra ResolverGroup extra ltac:(discriminate) Hx).
    rewrite !map_app, !app_nil_r. simpl. rewrite <- app_assoc. split; reflexivity.
Qed.

(** [prepareNodes] lists one schema node per schema node, with the node's
    name as id, and one resolver node per resolver, with its path as id,
    each in input order; with [groupBySource] off it adds no data-source
    node at all. *)
Theorem prepareNodes_groups (schema : list SchemaNode.t) (resolvers : list ResolverInfo.t)
    (groupBySource : bool) :
  map VisNode.id (filter (isGroup SchemaGroup) (prepareNodes schema resolvers groupBySource))
    = map SchemaNode.name schema /\
  map VisNode.id (filter (isGroup ResolverGroup) (prepareNodes schema resolvers groupBySource))
    = map ResolverInfo.path resolvers /\
  filter (isGroup DataSourceGroup) (prepareNodes schema resolvers false) = [].
Proof.
  assert (Hs : forall g, filter (isGroup g)
                 (map (fun node => VisNode.mk (SchemaNode.name node) (Some (SchemaNode.name node))
                                              SchemaGroup) schema)
               = match g with
                 | SchemaGroup => map (fun node => VisNode.mk (SchemaNode.name node)
                                                     (Some (SchemaNode.name node)) SchemaGroup) schema
                 | _ => []
                 end).
  { intros g. induction schema as [|n ns IH]; [destruct g; reflexivity|].
    simpl. rewrite IH. destruct g; reflexivity. }
  unfold prepareNodes.
  destruct (fold_addResolver_groups groupBySource resolvers
              (map (fun node => VisNode.mk (SchemaNode.name node) (Some (SchemaNode.name node))
                                           SchemaGroup) schema)) as [H1 H2].
  split; [|split].
  - rewrite H1, Hs, map_map. reflexivity.
  - rewrite H2, Hs. reflexivity.
  - assert (Hd : forall rs nodes,
               filter (isGroup DataSourceGroup) nodes = [] ->
               filter (isGroup DataSourceGroup) (fold_left (addResolver false) rs nodes) = []).
    { induction rs as [|r rs IH]; intros nodes Hn; [exact Hn|].
      simpl. apply IH. unfold addResolver. simpl.
      rewrite filter_app, Hn. reflexivity. }
    apply Hd. rewrite Hs. reflexivity.
Qed.

Lemma fold_addResolver_sources_nodup (groupBySource : bool) (rs : list ResolverInfo.t) :
  forall nodes,
    NoDup (map VisNode.id (filter (isGroup DataSourceGroup) nodes)) ->
    NoDup (map VisNode.id (filter (isGroup DataSourceGroup)
                            (fold_left (addResolver groupBySource) rs nodes))).
Proof.
  induction rs as [|r rs IH]; intros nodes Hnd; [exact Hnd|].
  simpl. apply IH. unfold addResolver.
  set (nodes1 := app nodes [VisNode.mk (ResolverInfo.path r)
                              (nth_error (JS.split_dot (ResolverInfo.path r)) 1) ResolverGroup]).
  assert (H1 : filter (isGroup DataSourceGroup) nodes1 = filter (isGroup DataSourceGroup) nodes).
  { unfold nodes1. rewrite filter_app. simpl. apply app_nil_r. }
  destruct (groupBySource && _); [|rewrite H1; exact Hnd].
  destruct (sourceNode r) as [sid slabel].
  destruct (negb (String.eqb sid "") && negb (existsb _ nodes1)) eqn:Eadd;
    [|rewrite H1; exact Hnd].
  apply andb_prop in Eadd as [_ Hnew]. apply negb_true_iff in Hnew.
  rewrite filter_app, map_app. simpl. rewrite H1.
  apply NoDup_app; [exact Hnd | repeat constructor; intros [] |].
  intros x Hx [Hy | []]. subst x.
  apply in_map_iff in Hx as [n [Hid Hn]]. apply filter_In in Hn as [Hn _].
  assert (Hex : existsb (fun n => String.eqb (VisNode.id n) sid) nodes1 = true).
  { apply existsb_exists. exists n. split.
    - unfold nodes1. apply in_or_app. left. exact Hn.
    - rewrite Hid. apply String.eqb_refl. }
  congruence.
Qed.

(** The data-source nodes of the graph have pairwise distinct ids: a
    database or API used by several resolvers gets a single node. *)
Theorem prepareNodes_sources_unique (schema : list SchemaNode.t)
    (resolvers : list ResolverInfo.t) (groupBySource : bool) :
  NoDup (map VisNode.id (filter (isGroup DataSourceGroup)
                          (prepareNodes schema resolvers groupBySource))).
Proof.
  unfold prepareNodes. apply fold_addResolver_sources_nodup.
  induction schema as [|n ns IH]; [constructor|]. exact IH.
Qed.

Lemma sourceNode_kind (r : ResolverInfo.t) :
  fst (sourceNode r) <> "" ->
  match ResolverInfo.sourceType r with Unknown | Computed => false | _ => true end = true.
Proof.
  unfold sourceNode. destruct (ResolverInfo.sourceType r); simpl; auto.
Qed.

Lemma fold_addResolver_keeps (groupBySource : bool) (rs : list ResolverInfo.t) :
  forall nodes x, In x (map VisNode.id nodes) ->
    In x (map VisNode.id (fold_left (addResolver groupBySource) rs nodes)).
Proof.
  induction rs as [|r rs IH]; intros nodes x Hx; [exact Hx|].
  simpl. apply IH. destruct (addResolver_shape groupBySource nodes r) as [extra [-> _]].
  rewrite map_app. apply in_or_app. left. exact Hx.
Qed.

(** With [groupBySource] on, every resolver that names a data source
    (a database resolver with database information or an API resolver
    with API information) finds a node with that source's id in the
    graph. *)
Theorem prepareNodes_source_present (schema : list SchemaNode.t)
    (resolvers : list ResolverInfo.t) (r : ResolverInfo.t) :
  In r resolvers -> fst (sourceNode r) <> "" ->
  In (fst (sourceNode r)) (map VisNode.id (prepareNodes schema resolvers true)).
Proof.
  intros Hin Hne. unfold prepareNodes.
  generalize (map (fun node => VisNode.mk (SchemaNode.name node) (Some (SchemaNode.name node))
                                          SchemaGroup) schema) as nodes.
  induction resolvers as [|r' rs IH]; intros nodes; [destruct Hin|].
  destruct Hin as [-> | Hin]; simpl; [|apply IH; exact Hin].
  apply fold_addResolver_keeps. unfold addResolver. cbv zeta.
  rewrite (sourceNode_kind r Hne). cbn [andb].
  destruct (sourceNode r) as [sid slabel] eqn:Es. cbn [fst] in Hne |- *.
  set (nodes1 := app nodes [VisNode.mk (ResolverInfo.path r)
                              (nth_error (JS.split_dot (ResolverInfo.path r)) 1) ResolverGroup]).
  destruct (String.eqb sid "") eqn:Ee; [apply String.eqb_eq in Ee; contradiction|].
  destruct (existsb (fun n => String.eqb (VisNode.id n) sid) nodes1) eqn:Ex; cbn [negb andb].
  - apply existsb_exists in Ex as [n [Hn Hid]]. apply String.eqb_eq in Hid.
    apply in_map_iff. exists n. split; [exact Hid | exact Hn].
  - rewrite map_app. apply in_or_app. right. left. reflexivity.
Qed.

Definition prisma_users : ResolverInfo.t :=
  analyzeResolverImplementation "() => prisma.user.findMany()" "Query.users".

Lemma prepareNodes_source_present_witness :
  In "db_prisma_user" (map VisNode.id (prepareNodes [] [prisma_users] true)).
Proof.
  apply (prepareNodes_source_present [] [prisma_users] prisma_users);
    [left; reflexivity | vm_compute; discriminate].
Defined.

(** ** Prisma operations and letter case *)

Lemma prefix_app_l (p q : string) : forall s,
  String.prefix (p ++ q) s = true -> String.prefix p s = true.
Proof.
  induction p as [|a p IH]; intros s H; destruct s as [|b s]; simpl in *; auto.
  destruct (ascii_dec a b); [apply IH; exact H | discriminate].
Qed.

Lemma includes_app_l (p q s : string) :
  JS.includes s (p ++ q) = true -> JS.includes s p = true.
Proof.
  induction s as [|c s IH]; cbn [JS.includes]; intros H.
  - exact (prefix_app_l p q "" H).
  - apply orb_true_iff in H as [H | H]; apply orb_true_iff;
      [left; exact (prefix_app_l p q _ H) | right; exact (IH H)].
Qed.

(** [detectPrismaOperation] answers [update] exactly when the code
    contains [.update] but none of [.findMany], [.findUnique],
    [.findFirst] and [.create], and [delete] exactly when it contains
    [.delete] but none of these nor [.update]: the [...Many] variants it
    also tests never change the answer. *)
Theorem detectPrismaOperation_update_delete (text : string) :
  (detectPrismaOperation text = Update <->
     JS.includes text ".update" = true /\
     JS.includes text ".findMany" = false /\ JS.includes text ".findUnique" = false /\
     JS.includes text ".findFirst" = false /\ JS.includes text ".create" = false) /\
  (detectPrismaOperation text = Delete <->
     JS.includes text ".delete" = true /\ JS.includes text ".update" = false /\
     JS.includes text ".findMany" = false /\ JS.includes text ".findUnique" = false /\
     JS.includes text ".findFirst" = false /\ JS.includes text ".create" = false).
Proof.
  assert (Hu : JS.includes text ".updateMany" = true -> JS.includes text ".update" = true)
    by apply (includes_app_l ".update" "Many").
  assert (Hd : JS.includes text ".deleteMany" = true -> JS.includes text ".delete" = true)
    by apply (includes_app_l ".delete" "Many").
  unfold detectPrismaOperation.
  destruct (JS.includes text ".findMany"), (JS.includes text ".findUnique"),
           (JS.includes text ".findFirst"), (JS.includes text ".create"),
           (JS.includes text ".update"), (JS.includes text ".updateMany"),
           (JS.includes text ".delete"), (JS.includes text ".deleteMany");
    simpl; split; split;
    first [ discriminate
          | intros [H1 [H2 [H3 [H4 H5]]]]; discriminate
          | intros [H1 [H2 [H3 [H4 [H5 H6]]]]]; discriminate
          | intros; repeat split; reflexivity
          | intros; discriminate (Hu eq_refl)
          | intros; discriminate (Hd eq_refl)
          | intros; reflexivity ].
Qed.

Lemma upper_lower_char (c : ascii) : JS.upper_char (JS.lower_char c) = JS.upper_char c.
Proof. destruct c as [[] [] [] [] [] [] [] []]; reflexivity. Qed.

Lemma upper_upper_char (c : ascii) : JS.upper_char (JS.upper_char c) = JS.upper_char c.
Proof. destruct c as [[] [] [] [] [] [] [] []]; reflexivity. Qed.

(** The SQL test upper-cases the code first, so it ignores letter case:
    on 7-bit ASCII code, the lower-cased or upper-cased code gives the
    same answer as the code itself. *)
Theorem containsSQLPattern_case (text : string) :
  all_chars JS.is_ascii7 text = true ->
  containsSQLPattern (JS.toLowerCase text) = containsSQLPattern text /\
  containsSQLPattern (JS.toUpperCase text) = containsSQLPattern text.
Proof.
  intros _. unfold containsSQLPattern. split; f_equal;
    induction text as [|c s IH]; simpl; try reflexivity;
    rewrite IH; f_equal; [apply upper_lower_char | apply upper_upper_char].
Qed.

Lemma containsSQLPattern_case_witness :
  containsSQLPattern (JS.toLowerCase "SELECT * FROM users") = containsSQLPattern "SELECT * FROM users" /\
  containsSQLPattern (JS.toUpperCase "SELECT * FROM users") = containsSQLPattern "SELECT * FROM users".
Proof. apply (containsSQLPattern_case "SELECT * FROM users"). reflexivity. Defined.

(** A function bound to a variable is a resolver exactly when the
    variable's lower-cased name contains [resolver]; its single info then
    has the variable's name as path, and, when the name is not empty and
    has no dot, as type name and field name too. *)
Theorem analyzeFunction_names (functionName text : string) :
  functionName <> "" -> all_chars notDot functionName = true ->
  map (fun r => (ResolverInfo.typeName r, ResolverInfo.fieldName r,
                 ResolverInfo.path r, ResolverInfo.code r))
      (analyzeFunction (Identifier functionName) text)
  = if JS.includes (JS.toLowerCase functionName) "resolver"
    then [(functionName, functionName, functionName, text)] else [].
Proof.
  intros Hne Hd. unfold analyzeFunction.
  destruct (JS.includes (JS.toLowerCase functionName) "resolver"); [|reflexivity].
  assert (Hn : JS.or_default (JS.pop (JS.split_dot functionName)) "unknown" = functionName).
  { unfold JS.split_dot. rewrite split_dot_acc_dotfree by exact Hd. simpl.
    destruct (String.eqb functionName "") eqn:E;
      [apply String.eqb_eq in E; contradiction | reflexivity]. }
  cbn [map]. unfold analyzeResolverImplementation. cbv zeta. rewrite Hn.
  repeat match goal with |- context [if ?c then _ else _] => destruct c end; reflexivity.
Qed.

Lemma analyzeFunction_names_witness :
  map (fun r => (ResolverInfo.typeName r, ResolverInfo.fieldName r,
                 ResolverInfo.path r, ResolverInfo.code r))
      (analyzeFunction (Identifier "userResolver") "() => 1")
  = [("userResolver", "userResolver", "userResolver", "() => 1")].
Proof.
  exact (analyzeFunction_names "userResolver" "() => 1" ltac:(discriminate) eq_refl).
Defined.

(** ** Computed resolvers *)

Lemma test_sound (r : Regex.regex) (s : string) :
  Regex.test r s = true -> exists pre mt rest, s = pre ++ mt ++ rest /\ in_lang r mt.
Proof.
  unfold Regex.test. destruct (Regex.exec r s) as [[[mt rest] caps]|] eqn:E; [|discriminate].
  intros _. destruct (exec_sound _ _ _ _ _ E) as [pre [Hs [Hl _]]].
  exists pre, mt, rest. auto.
Qed.

(** The file-based classifier calls a resolver [computed] only when its
    code matches none of the Prisma, Mongoose, TypeORM, SQL, REST and
    GraphQL patterns and contains [return] followed by white space. *)
Theorem analyzeResolverImplementation_computed (text resolverPath : string) :
  ResolverInfo.sourceType (analyzeResolverImplementation text resolverPath) = Computed ->
  containsPrismaPattern text = false /\ containsMongoosePattern text = false /\
  containsTypeORMPattern text = false /\ containsSQLPattern text = false /\
  containsRESTApiPattern text = false /\ containsGraphQLPattern text = false /\
  exists pre sp rest, text = pre ++ "return" ++ sp ++ rest /\
    sp <> "" /\ all_chars JS.is_space sp = true.
Proof.
  unfold analyzeResolverImplementation. cbv zeta.
  destruct (containsPrismaPattern text) eqn:E1; [discriminate|].
  destruct (containsMongoosePattern text) eqn:E2; [discriminate|].
  destruct (containsTypeORMPattern text) eqn:E3; [discriminate|].
  destruct (containsSQLPattern text) eqn:E4; [discriminate|].
  destruct (containsRESTApiPattern text) eqn:E5; [discriminate|].
  destruct (containsGraphQLPattern text) eqn:E6; [discriminate|].
  destruct (isLikelyComputed text) eqn:E7; [|discriminate].
  intros _. repeat split; try reflexivity.
  unfold isLikelyComputed in E7. rewrite E1, E2, E3, E4, E5, E6 in E7. simpl in E7.
  destruct (test_sound _ _ E7) as [pre [mt [rest [Hs Hl]]]].
  unfold logic_re in Hl. cbv zeta in Hl. simpl in Hl.
  inversion Hl as [| | |r1 r2 p1 p2 Hret Htl| | |]; subst.
  inversion Hret; subst.
  inversion Htl as [| | |r3 r4 sp p3 Hsp _| | |]; subst.
  destruct (in_lang_plus _ _ Hsp) as [Hne Hall].
  exists pre, sp, (p3 ++ rest). split; [|split; assumption].
  rewrite !str_app_assoc. reflexivity.
Qed.

Lemma analyzeResolverImplementation_computed_witness :
  ResolverInfo.sourceType (analyzeResolverImplementation "(p) => { return p.a + 1 }" "Post.score")
    = Computed /\
  containsPrismaPattern "(p) => { return p.a + 1 }" = false.
Proof.
  assert (H : ResolverInfo.sourceType
                (analyzeResolverImplementation "(p) => { return p.a + 1 }" "Post.score")
              = Computed) by (vm_compute; reflexivity).
  split; [exact H|].
  apply (analyzeResolverImplementation_computed "(p) => { return p.a + 1 }" "Post.score" H).
Defined.

(** ** Resolver files *)

Import ResolverFiles.

Lemma endsWith_sound (s p : string) : endsWith s p = true -> exists pre, s = pre ++ p.
Proof.
  induction s as [|c s IH]; cbn [endsWith]; intros H.
  - rewrite orb_false_r in H. apply String.eqb_eq in H. subst. exists "". reflexivity.
  - apply orb_true_iff in H as [H | H].
    + apply String.eqb_eq in H. subst. exists "". reflexivity.
    + destruct (IH H) as [pre ->]. exists (String c pre). reflexivity.
Qed.

Definition sourceName (f : string) : Prop :=
  exists pre, f = pre ++ ".ts" \/ f = pre ++ ".js".

Lemma isSourceFile_sound (f : string) : isSourceFile f = true -> sourceName f.
Proof.
  unfold isSourceFile, sourceName. intros H. apply orb_true_iff in H as [H | H];
    destruct (endsWith_sound _ _ H) as [pre ->]; exists pre; auto.
Qed.

Lemma join_sourceName (d f : string) : sourceName f -> sourceName (join d f).
Proof.
  unfold join. intros [pre [-> | ->]]; exists (d ++ "/" ++ pre);
    [left | right]; rewrite !str_app_assoc; reflexivity.
Qed.

Lemma addFilesFromDirectory_sources : forall entries dirPath,
  Forall sourceName (addFilesFromDirectory dirPath entries).
Proof.
  fix IH 1. intros [|file stat rest] dirPath; [constructor|].
  simpl. apply Forall_app. split; [|apply IH].
  destruct stat as [|entries|]; [| apply IH |];
    destruct (isSourceFile file) eqn:E; try constructor;
    try (apply join_sourceName, isSourceFile_sound, E); constructor.
Qed.

(** Every file collected for analysis, given directly or found by the
    recursive walk of a given directory, has a name ending in [.ts] or
    [.js]. *)
Theorem loadResolverFiles_extensions (resolverPaths : list (string * option Stat)) :
  Forall sourceName (loadResolverFiles resolverPaths).
Proof.
  unfold loadResolverFiles. apply Forall_flat_map.
  intros [resolverPath [[|entries|]|]] _;
    [| apply addFilesFromDirectory_sources | constructor | constructor].
  destruct (isSourceFile resolverPath) eqn:E; [|constructor].
  constructor; [apply isSourceFile_sound, E | constructor].
Qed.

(** ** From the schema to the [references] edges *)

(** In the pipeline [analyze] then [analyzeConnections], every
    [references] edge starts at a non-introspection [OBJECT] or
    [INTERFACE] type of the schema and points to the core type name of
    one of its fields, a name that is not one of the built-in scalars:
    input objects, unions and enums never get outgoing [references]
    edges, and resolvers never add any. *)
Theorem references_from_schema_fields (schema : GraphQL.Schema)
    (resolverInfos : list ResolverInfo.t) (c : Connection.t) :
  In c (referencesEdges (AnalysisResult.connections
                           (analyzeConnections (analyzeTypes schema) resolverInfos))) ->
  exists t fld, In t schema /\ JS.startsWith (GraphQL.t_name t) "__" = false /\
    (GraphQL.t_kind t = GraphQL.OBJECT \/ GraphQL.t_kind t = GraphQL.INTERFACE) /\
    In fld (GraphQL.t_fields t) /\
    isScalarName (getTypeName (GraphQL.f_type fld)) = false /\
    Connection.from c = GraphQL.t_name t /\
    Connection.to c = JS.strip_wrappers (getTypeName (GraphQL.f_type fld)).
Proof.
  unfold referencesEdges. simpl. intros Hin.
  apply filter_In in Hin as [Hin Href]. apply in_app_iff in Hin as [Hin | Hin].
  - exfalso. apply in_flat_map in Hin as [r [_ Hr]].
    assert (Hf : In c (referencesEdges (resolverConnections r))).
    { unfold referencesEdges. apply filter_In. auto. }
    rewrite resolverConnections_no_references in Hf. destruct Hf.
  - apply in_flat_map in Hin as [n [Hn Hc]].
    unfold analyzeTypes in Hn. apply in_flat_map in Hn as [t [Ht Hn]].
    apply filter_In in Ht as [Ht Hnot]. apply negb_true_iff in Hnot.
    destruct (determineNodeType t) as [nt|] eqn:Ed; [|destruct Hn].
    destruct Hn as [<- | []].
    unfold nodeConnections in Hc. cbn [SchemaNode.fields SchemaNode.name] in Hc.
    destruct (GraphQL.t_kind t) eqn:Ek; cbv beta iota in Hc;
      try (exact (False_ind _ Hc));
      apply in_flat_map in Hc as [sf [Hsf Hc]];
      apply in_map_iff in Hsf as [fld [<- Hfld]];
      unfold toSchemaField in Hc; cbn [SchemaField.type SchemaField.name] in Hc;
      destruct (isScalarName (getTypeName (GraphQL.f_type fld))) eqn:Es; cbn [negb] in Hc;
      first [exact (False_ind _ Hc) | destruct Hc as [<- | []]];
      exists t, fld; repeat split; auto.
Qed.

Lemma references_from_schema_fields_witness :
  exists t fld, In t blog_types /\ JS.startsWith (GraphQL.t_name t) "__" = false /\
    (GraphQL.t_kind t = GraphQL.OBJECT \/ GraphQL.t_kind t = GraphQL.INTERFACE) /\
    In fld (GraphQL.t_fields t) /\
    isScalarName (getTypeName (GraphQL.f_type fld)) = false /\
    "Post" = GraphQL.t_name t /\
    "User" = JS.strip_wrappers (getTypeName (GraphQL.f_type fld)).
Proof.
  apply (references_from_schema_fields blog_types []
           (StaticAnalyzer.edge "Post" "User" References "Post references User via author field")).
  vm_compute. left. reflexivity.
Defined.
